(** * The VTEX order-fetch pipeline of [API VTEX/Projeto Final]

    A shallow embedding of [fetch_order_details] and [FetchOrdersThread.run]
    (api.py), of [load_config] and [is_date_in_brazil_interval] (utils.py) and
    of the slots of [OrdersDashboard] that consume the result (ui.py),
    followed by the properties of the pipeline: deduplication, status
    membership, retry and partial-result behaviour, shipping enrichment,
    progress reporting, the date filter, the configuration and the table.

    Python values are modelled as follows.
    - [int] is [Z]; [float] is the kernel's binary64 [float]. [int / int]
      is the exact quotient rounded once, as CPython's true division is.
    - The body of an order-detail response is any JSON value; the
      operations [fetch_order_details] applies to it ([get], [in], [/],
      iteration) raise on the values CPython raises on.
    - A record of the listing endpoint is a dict whose keys are [option]
      fields; ids, statuses and creation dates are strings when present.
    - The remote API is a [world]: a function from the number of HTTP
      requests issued so far and the request to what [requests.get] does.
    - [time.sleep], [requests.get] and [Signal.emit] are recorded, in order,
      in a trace of events; [print] is not.
    - The [while True] loop of [run] takes a fuel argument (pages per
      status); [run_more_fuel] shows that the result of a finished run does
      not depend on it. *)

From Stdlib Require Import ZArith String Ascii List Floats Sorted Reals Lra.
From Stdlib Require Uint63.
From stdpp Require Import base gmap strings list.

Set Warnings "-register-all".
Local Open Scope Z_scope.

(** ** Python numerics and strings *)

Module Py.

(** An int as a binary float that is not rounded yet: mantissa [|z|],
    exponent 0. *)
Definition SF_of_Z (z : Z) : spec_float :=
  match z with
  | Z0 => S754_zero false
  | Zpos m => S754_finite false m 0
  | Zneg m => S754_finite true m 0
  end.

(** [a / b] on two ints (true division): the exact quotient, rounded once
    to the nearest binary64, ties to even. [None] is the ZeroDivisionError
    of [b = 0] or the OverflowError of a quotient beyond the binary64
    range. *)
Definition truediv (a b : Z) : option float :=
  if b =? 0 then None
  else match SF64div (SF_of_Z a) (SF_of_Z b) with
       | S754_infinity _ => None
       | q => Some (SF2Prim q)
       end.

(** [int(x)]: truncation towards zero; [None] stands for the OverflowError or
    ValueError that CPython raises on an infinity or a NaN. *)
Definition int_of_float (x : float) : option Z :=
  match Prim2SF x with
  | S754_zero _ => Some 0
  | S754_finite s m e => Some (cond_Zopp s (Z.shiftl (Z.pos m) e))
  | S754_infinity _ | S754_nan => None
  end.

(** [range(n)] *)
Definition range (n : Z) : list Z := Z.of_nat <$> seq 0 (Z.to_nat n).

(** [str(n)] for a non-negative int, zero padded to [width] digits. *)
Fixpoint digits (width : nat) (n : Z) (acc : string) : string :=
  match width with
  | O => acc
  | S w => digits w (n / 10) (String (ascii_of_nat (48 + Z.to_nat (n mod 10))) acc)
  end.

Definition pad (width : nat) (n : Z) : string := digits width n EmptyString.

(** [needle in hay] on two strings. *)
Fixpoint contains (needle hay : string) : bool :=
  String.prefix needle hay
  || match hay with
     | EmptyString => false
     | String _ hay' => contains needle hay'
     end.

(** The characters of a string, each as a string: what iterating over a
    [str] yields. *)
Fixpoint chars (s : string) : list string :=
  match s with
  | EmptyString => []
  | String a s' => String a EmptyString :: chars s'
  end.

End Py.

(** ** JSON values and the operations the code applies to them *)

Module Json.

(** What [response.json()] returns. *)
Inductive jvalue :=
| JNull
| JBool (b : bool)
| JInt (n : Z)
| JFloat (x : float)
| JStr (s : string)
| JArr (items : list jvalue)
| JObj (fields : gmap string jvalue).

(** A JSON object given by its members. *)
Definition obj (members : list (string * jvalue)) : jvalue :=
  JObj (list_to_map members).

(** [d.get(key, dflt)]; [None]: AttributeError, [d] is not a dict. *)
Definition get (d : jvalue) (key : string) (dflt : jvalue) : option jvalue :=
  match d with
  | JObj fields => Some (default dflt (fields !! key))
  | _ => None
  end.

(** [for x in v]: the values [x] takes; [None]: TypeError, [v] is not
    iterable. A dict yields its keys, a string its characters. *)
Definition items_of (v : jvalue) : option (list jvalue) :=
  match v with
  | JArr items => Some items
  | JObj fields => Some (JStr <$> (map_to_list fields).*1)
  | JStr s => Some (JStr <$> Py.chars s)
  | _ => None
  end.

(** [v == s] for a string [s]. *)
Definition eq_str (v : jvalue) (s : string) : bool :=
  match v with
  | JStr t => bool_decide (t = s)
  | _ => false
  end.

(** [key in v]: a key of a dict, an element of a list, a substring of a
    string; [None]: TypeError. *)
Definition has (key : string) (v : jvalue) : option bool :=
  match v with
  | JObj fields => Some (bool_decide (is_Some (fields !! key)))
  | JArr items => Some (existsb (fun x => eq_str x key) items)
  | JStr s => Some (Py.contains key s)
  | _ => None
  end.

(** [v[key]] for a string [key]; [None]: KeyError on a dict without the
    key, TypeError on any other value. *)
Definition subscript (v : jvalue) (key : string) : option jvalue :=
  match v with
  | JObj fields => fields !! key
  | _ => None
  end.

(** [v / 100]: an int (a bool is one) is divided exactly and rounded once,
    a float is divided by 100.0; [None]: TypeError on any other value,
    OverflowError on an int beyond the binary64 range. *)
Definition div_100 (v : jvalue) : option float :=
  match v with
  | JInt n => Py.truediv n 100
  | JBool b => Py.truediv (Z.b2z b) 100
  | JFloat x => Some (PrimFloat.div x 100)
  | _ => None
  end.

End Json.

(** ** [datetime] and [pytz], as far as [run] uses them *)

Module Datetime.

Record date := Date { year : Z; month : Z; day : Z }.
Record time := Time { hour : Z; minute : Z; second : Z; microsecond : Z }.

(** [datetime.min.time()] and [datetime.max.time()] *)
Definition min_time : time := Time 0 0 0 0.
Definition max_time : time := Time 23 59 59 999999.

(** A tzinfo object. [own_utcoffset] is what [utcoffset(dt)] answers, in
    seconds, for a datetime whose [tzinfo] attribute is this very object. *)
Record tzinfo := { zone : string; own_utcoffset : Z }.

Record datetime := { dt_date : date; dt_time : time; dt_tzinfo : tzinfo }.

(** [pytz.UTC] *)
Definition UTC : tzinfo := {| zone := "UTC"; own_utcoffset := 0 |}.

(** [pytz.timezone("America/Sao_Paulo")]. The object pytz returns is the
    zone's first entry, local mean time: LMT-3:06:28, which pytz rounds to
    the minute, -3:06:00. Only [tz.localize(naive)] selects the entry in
    force at a given date (-3:00:00 since 2019). *)
Definition America_Sao_Paulo : tzinfo :=
  {| zone := "America/Sao_Paulo"; own_utcoffset := - (3 * 3600 + 6 * 60) |}.

(** The offset in force in America/Sao_Paulo since daylight saving time was
    abolished there in 2019: what [localize] would select. *)
Definition Sao_Paulo_standard_offset : Z := - (3 * 3600).

(** [datetime.combine(d, t, tzinfo=tz)] attaches [tz] as it is. *)
Definition combine (d : date) (t : time) (tz : tzinfo) : datetime :=
  {| dt_date := d; dt_time := t; dt_tzinfo := tz |}.

(** Days since 1970-01-01 of a proleptic Gregorian date, and back. *)
Definition days_from_civil (d : date) : Z :=
  let y := if month d <=? 2 then year d - 1 else year d in
  let era := y / 400 in
  let yoe := y - era * 400 in
  let mp := if month d >? 2 then month d - 3 else month d + 9 in
  let doy := (153 * mp + 2) / 5 + day d - 1 in
  let doe := yoe * 365 + yoe / 4 - yoe / 100 + doy in
  era * 146097 + doe - 719468.

Definition civil_from_days (z : Z) : date :=
  let z := z + 719468 in
  let era := z / 146097 in
  let doe := z - era * 146097 in
  let yoe := (doe - doe / 1460 + doe / 36524 - doe / 146096) / 365 in
  let doy := doe - (365 * yoe + yoe / 4 - yoe / 100) in
  let mp := (5 * doy + 2) / 153 in
  let d := doy - (153 * mp + 2) / 5 + 1 in
  let m := if mp <? 10 then mp + 3 else mp - 9 in
  let y := yoe + era * 400 in
  Date (if m <=? 2 then y + 1 else y) m d.

Definition seconds_of_day (t : time) : Z :=
  hour t * 3600 + minute t * 60 + second t.

(** [date.min] and [date.max] as days since 1970-01-01. *)
Definition min_day : Z := days_from_civil (Date 1 1 1).
Definition max_day : Z := days_from_civil (Date 9999 12 31).

(** [dt.astimezone(pytz.UTC)]: subtract the offset that [dt]'s own tzinfo
    reports; the microseconds are untouched (offsets are whole seconds).
    [None] is the OverflowError of a result outside years 1 to 9999. *)
Definition astimezone_utc (dt : datetime) : option datetime :=
  let s := days_from_civil (dt_date dt) * 86400 + seconds_of_day (dt_time dt)
           - own_utcoffset (dt_tzinfo dt) in
  let sod := s mod 86400 in
  if (min_day <=? s / 86400) && (s / 86400 <=? max_day)
  then Some {| dt_date := civil_from_days (s / 86400);
               dt_time := Time (sod / 3600) (sod mod 3600 / 60) (sod mod 60)
                               (microsecond (dt_time dt));
               dt_tzinfo := UTC |}
  else None.

(** [%Y]: the year in decimal, which the C library does not pad. *)
Definition year_text (y : Z) : string :=
  if y <? 10 then Py.pad 1 y
  else if y <? 100 then Py.pad 2 y
  else if y <? 1000 then Py.pad 3 y
  else Py.pad 4 y.

(** [dt.strftime("%Y-%m-%dT%H:%M:%S" + suffix)]. *)
Definition strftime (dt : datetime) (suffix : string) : string :=
  year_text (year (dt_date dt)) +:+ "-" +:+ Py.pad 2 (month (dt_date dt)) +:+ "-"
  +:+ Py.pad 2 (day (dt_date dt)) +:+ "T" +:+ Py.pad 2 (hour (dt_time dt)) +:+ ":"
  +:+ Py.pad 2 (minute (dt_time dt)) +:+ ":" +:+ Py.pad 2 (second (dt_time dt))
  +:+ suffix.

End Datetime.

(** ** The two VTEX endpoints and the worker's observable effects *)

Module Http.
Import Json.

(** One order summary of the listing endpoint's ["list"]. [run] adds the two
    shipping keys to this same dict before appending it to the result. *)
Record order := {
  orderId : option string;            (* [order.get('orderId')] *)
  status : option string;             (* [None]: the key is absent *)
  creationDate : option string;       (* [None]: the key is absent *)
  totalValue : option jvalue;         (* [None]: the key is absent *)
  shippingValue : option float;       (* [None]: the key is not set *)
  shippingListPrice : option float }.

(** The ["paging"] object; [total = None] when the key is absent. *)
Record paging := { total : option Z }.

(** Body of a listing response; [None] is a missing key. *)
Record listing_data := { l_paging : option paging; l_list : option (list order) }.

(** A [requests.Response]; [json = None] when [response.json()] raises. *)
Record response (A : Type) := { status_code : Z; json : option A }.
Arguments status_code {A} _.
Arguments json {A} _.

(** What [requests.get] does: raise a [RequestException] (connection error,
    timeout) or return a response. *)
Inductive outcome (A : Type) :=
| RequestException
| Got (r : response A).
Arguments RequestException {A}.
Arguments Got {A} r.

(** [response.raise_for_status()] raises [HTTPError] on 4xx and 5xx. *)
Definition raises_for_status {A} (r : response A) : bool :=
  (400 <=? status_code r) && (status_code r <? 600).

(** The query parameters of a listing request. *)
Record params := {
  per_page : Z; page : Z; f_creationDate : string;
  orderStatus : string; orderBy : string }.

Definition next_page (p : params) : params :=
  {| per_page := per_page p; page := page p + 1;
     f_creationDate := f_creationDate p; orderStatus := orderStatus p;
     orderBy := orderBy p |}.

(** The remote side: the answer to the [n]-th HTTP request of the run. The
    body of an order-detail response is any JSON value. *)
Record world := {
  list_api : nat -> string -> params -> outcome listing_data;
  detail_api : nat -> string -> outcome jvalue }.

Inductive event :=
| EvGetList (url : string) (p : params)     (* [requests.get(url, params=params)] *)
| EvGetDetail (url : string)                (* [requests.get(url)] *)
| EvSleep (seconds : Z)                     (* [time.sleep] *)
| EvProgress (percent : Z).                 (* [self.progress.emit] *)

(** Requests issued so far and the events so far, oldest first. *)
Record io := { calls : nat; trace : list event }.

Definition log (e : event) (s : io) : io :=
  {| calls := calls s; trace := trace s ++ [e] |}.

Definition request (e : event) (s : io) : io :=
  {| calls := S (calls s); trace := trace s ++ [e] |}.

Definition sleep (seconds : Z) (s : io) : io := log (EvSleep seconds) s.

End Http.

(** ** api.py *)

Module Api.
Import Json Http.

(** The dict [load_config] returns when all three keys are present. *)
Record config := { vtex_account : string; app_key : string; app_token : string }.

Definition orders_url (c : config) : string :=
  "https://" +:+ vtex_account c +:+ ".vtexcommercestable.com.br/api/oms/pvt/orders".

(** [f"{order_id}"]: [None] prints as the text None. *)
Definition str_order_id (order_id : option string) : string :=
  match order_id with Some s => s | None => "None" end.

Definition detail_url (c : config) (order_id : option string) : string :=
  orders_url c +:+ "/" +:+ str_order_id order_id.

(** In the functions of lines 22-42 [None] is an exception that is not a
    [RequestException]: an AttributeError, a TypeError or an OverflowError
    raised by the operations on the body. *)

(** Lines 26-31: the loop over the totals; the first entry whose id is
    Shipping gives the value, and 0.0 when the loop runs to its end. *)
Fixpoint shipping_from_totals (ts : list jvalue) : option float :=
  match ts with
  | [] => Some 0%float
  | total :: rest =>
      i ← get total "id" JNull;
      if eq_str i "Shipping"
      then v ← get total "value" (JInt 0); div_100 v
      else shipping_from_totals rest
  end.

(** Lines 22-31. *)
Definition shipping_value_of (data : jvalue) : option float :=
  shipping_value ← get data "shippingValue" JNull;
  match shipping_value with
  | JNull =>
      totals ← get data "totals" (JArr []);
      ts ← items_of totals;
      shipping_from_totals ts
  | v => div_100 v
  end.

(** Lines 35-40: the first logistics-info entry with a listPrice key, else
    the shipping value. *)
Fixpoint list_price_from (items : list jvalue) (shipping_value : float)
    : option float :=
  match items with
  | [] => Some shipping_value
  | item :: rest =>
      found ← has "listPrice" item;
      if found : bool
      then v ← subscript item "listPrice"; div_100 v
      else list_price_from rest shipping_value
  end.

(** Line 34, and what the loop of line 35 iterates over. *)
Definition logistics_info_of (data : jvalue) : option (list jvalue) :=
  shipping_data ← get data "shippingData" (JObj ∅);
  logistics_info ← get shipping_data "logisticsInfo" (JArr []);
  items_of logistics_info.

(** Lines 22-42: the two figures of a body. *)
Definition parse_details (data : jvalue) : option (float * float) :=
  shipping_value ← shipping_value_of data;
  items ← logistics_info_of data;
  shipping_list_price ← list_price_from items shipping_value;
  Some (shipping_value, shipping_list_price).

(** The [for attempt in range(max_retries)] loop of [fetch_order_details].
    A body that is not JSON raises [requests.exceptions.JSONDecodeError], a
    [RequestException] (requests 2.27 and later), inside the [try]. The
    result is [None] when an exception escapes the function. *)
Fixpoint fetch_order_details_loop (w : world) (url : string) (max_retries : Z)
    (attempts : list Z) (s : io) : option (float * float) * io :=
  match attempts with
  | [] => (Some (0%float, 0%float), s)
  | attempt :: rest =>
      let s1 := request (EvGetDetail url) s in
      let except (s' : io) :=
        if attempt =? max_retries - 1 then (Some (0%float, 0%float), s')
        else fetch_order_details_loop w url max_retries rest (sleep (2 ^ attempt) s') in
      match detail_api w (calls s) url with
      | RequestException => except s1
      | Got r =>
          if status_code r =? 429
          then fetch_order_details_loop w url max_retries rest (sleep (2 ^ attempt) s1)
          else if raises_for_status r then except s1
          else match json r with
               | None => except s1
               | Some data => (parse_details data, s1)
               end
      end
  end.

Definition fetch_order_details (w : world) (order_id : option string) (c : config)
    (s : io) : option (float * float) * io :=
  let max_retries := 3 in
  fetch_order_details_loop w (detail_url c order_id) max_retries (Py.range max_retries) s.

(** The local variables of [run] that the loops mutate. [response] is [None]
    until the first [requests.get] of the run returns. *)
Record state := {
  orders : list order;
  order_ids : gset (option string);
  total_expected : Z;
  orders_fetched : Z;
  response : option (Http.response listing_data);
  st_io : io }.

Definition with_io (s : io) (st : state) : state :=
  {| orders := orders st; order_ids := order_ids st;
     total_expected := total_expected st; orders_fetched := orders_fetched st;
     response := response st; st_io := s |}.

Definition with_response (r : Http.response listing_data) (st : state) : state :=
  {| orders := orders st; order_ids := order_ids st;
     total_expected := total_expected st; orders_fetched := orders_fetched st;
     response := Some r; st_io := st_io st |}.

Definition add_total (n : Z) (st : state) : state :=
  {| orders := orders st; order_ids := order_ids st;
     total_expected := total_expected st + n; orders_fetched := orders_fetched st;
     response := response st; st_io := st_io st |}.

(** How a loop body ends: normally, by [break], or by an exception that the
    [except Exception] of the status loop catches. The state is kept in all
    three cases: the locals are mutated in place. *)
Inductive flow :=
| Next (st : state)
| Break (st : state)
| Raise (st : state).

Definition state_of (f : flow) : state :=
  match f with Next st | Break st | Raise st => st end.

(** Lines 105-120: the retry loop of one page request. *)
Fixpoint fetch_page_loop (w : world) (url : string) (p : params) (max_retries : Z)
    (attempts : list Z) (st : state) : state :=
  match attempts with
  | [] => st
  | attempt :: rest =>
      let st1 := with_io (request (EvGetList url p) (st_io st)) st in
      let except (st' : state) :=
        if attempt =? max_retries - 1 then st'
        else fetch_page_loop w url p max_retries rest
               (with_io (sleep (2 ^ attempt) (st_io st')) st') in
      match list_api w (calls (st_io st)) url p with
      | RequestException => except st1
      | Got r =>
          let st2 := with_response r st1 in
          if status_code r =? 429
          then fetch_page_loop w url p max_retries rest
                 (with_io (sleep (2 ^ attempt) (st_io st2)) st2)
          else if raises_for_status r then except st2
          else st2
      end
  end.

(** Line 145: [min(100, int((orders_fetched / total_expected) * 100))];
    [None] when the division or [int] raises. *)
Definition progress_percent (orders_fetched total_expected : Z) : option Z :=
  ratio ← Py.truediv orders_fetched total_expected;
  x ← Py.int_of_float (PrimFloat.mul ratio 100);
  Some (Z.min 100 x).

(** Lines 139-140: [figure * 100] under both shipping keys. *)
Definition enrich (o : order) (shipping_value shipping_list_price : float) : order :=
  {| orderId := orderId o; status := status o;
     creationDate := creationDate o; totalValue := totalValue o;
     shippingValue := Some (PrimFloat.mul shipping_value 100);
     shippingListPrice := Some (PrimFloat.mul shipping_list_price 100) |}.

(** Lines 139-143: the enriched order is appended, its id marked as seen. *)
Definition append_order (st : state) (o : order)
    (shipping_value shipping_list_price : float) (s : io) : state :=
  {| orders := orders st ++ [enrich o shipping_value shipping_list_price];
     order_ids := {[ orderId o ]} ∪ order_ids st;
     total_expected := total_expected st;
     orders_fetched := orders_fetched st + 1;
     response := response st; st_io := s |}.

(** Lines 133-146: the body of [for order in page_orders]. An exception
    that escapes the lookup leaves the loop before the order is appended. *)
Definition process_order (w : world) (c : config) (statuses : list string)
    (st : state) (o : order) : flow :=
  let order_status := default "unknown" (status o) in
  let order_id := orderId o in
  if negb (bool_decide (order_status ∈ statuses)) then Next st
  else if bool_decide (order_id ∈ order_ids st) then Next st
  else
    match fetch_order_details w order_id c (st_io st) with
    | (None, s) => Raise (with_io s st)
    | (Some (shipping_value, shipping_list_price), s) =>
        let st1 := append_order st o shipping_value shipping_list_price s in
        if 0 <? total_expected st1 then
          match progress_percent (orders_fetched st1) (total_expected st1) with
          | Some percent => Next (with_io (log (EvProgress percent) (st_io st1)) st1)
          | None => Raise st1
          end
        else Next st1
    end.

Fixpoint process_orders (w : world) (c : config) (statuses : list string)
    (page_orders : list order) (st : state) : flow :=
  match page_orders with
  | [] => Next st
  | o :: rest =>
      match process_order w c statuses st o with
      | Next st' => process_orders w c statuses rest st'
      | stop => stop
      end
  end.

(** Lines 105-150: one turn of [while True]. [Next] is [params["page"] += 1]
    followed by the next turn. *)
Definition page_iter (w : world) (c : config) (statuses : list string)
    (p : params) (st : state) : flow :=
  let max_retries := 3 in
  let st1 := fetch_page_loop w (orders_url c) p max_retries (Py.range max_retries) st in
  match response st1 with
  | None => Raise st1                       (* [response] is unbound *)
  | Some r =>
      if negb (status_code r =? 200) then Break st1
      else match json r with
      | None => Raise st1                   (* [response.json()] raises *)
      | Some data =>
          match l_paging data, l_list data with
          | Some pg, Some page_orders =>
              let st2 := add_total (default 0 (total pg)) st1 in
              match process_orders w c statuses page_orders st2 with
              | Next st3 =>
                  if bool_decide (page_orders = [])
                     || (Z.of_nat (length page_orders) <? per_page p)
                  then Break st3 else Next st3
              | stop => Raise (state_of stop)
              end
          | _, _ => Break st1
          end
      end
  end.

(** The [while True] loop of one status; the boolean tells whether the loop
    was left ([false]: the fuel ran out first). *)
Fixpoint paginate (fuel : nat) (w : world) (c : config) (statuses : list string)
    (p : params) (st : state) : state * bool :=
  match fuel with
  | O => (st, false)
  | S fuel' =>
      match page_iter w c statuses p st with
      | Next st' => paginate fuel' w c statuses (next_page p) st'
      | Break st' | Raise st' => (st', true)
      end
  end.

Definition first_page (date_filter status : string) : params :=
  {| per_page := 100; page := 1; f_creationDate := date_filter;
     orderStatus := status; orderBy := "creationDate,asc" |}.

(** [for status in statuses], over the statuses still to query. *)
Fixpoint for_statuses (fuel : nat) (w : world) (c : config) (statuses : list string)
    (date_filter : string) (todo : list string) (st : state) : state * bool :=
  match todo with
  | [] => (st, true)
  | status :: rest =>
      match paginate fuel w c statuses (first_page date_filter status) st with
      | (st', true) => for_statuses fuel w c statuses date_filter rest st'
      | (st', false) => (st', false)
      end
  end.

(** The filter text for two instants. *)
Definition filter_text (start_utc end_utc : Datetime.datetime) : string :=
  "creationDate:[" +:+ Datetime.strftime start_utc ".000Z" +:+ " TO "
  +:+ Datetime.strftime end_utc ".999Z" +:+ "]".

(** Lines 74-79; [None] is the OverflowError of [astimezone]. *)
Definition date_filter_of (start_date end_date : Datetime.date) : option string :=
  let brazil_tz := Datetime.America_Sao_Paulo in
  let start_dt := Datetime.combine start_date Datetime.min_time brazil_tz in
  let end_dt := Datetime.combine end_date Datetime.max_time brazil_tz in
  start_utc ← Datetime.astimezone_utc start_dt;
  end_utc ← Datetime.astimezone_utc end_dt;
  Some (filter_text start_utc end_utc).

(** Lines 81-86; [None] is the [KeyError] of [status_map[...]]. *)
Definition status_map (status_filter : string) : option (list string) :=
  if bool_decide (status_filter = "Faturado") then Some ["invoiced"]
  else if bool_decide (status_filter = "Pronto para Manuseio") then Some ["ready-for-handling"]
  else if bool_decide (status_filter = "Todos") then Some ["invoiced"; "ready-for-handling"]
  else None.

Record FetchOrdersThread := {
  start_date : Datetime.date;
  end_date : Datetime.date;
  status_filter : string }.

Definition initial_state : state :=
  {| orders := []; order_ids := ∅; total_expected := 0; orders_fetched := 0;
     response := None; st_io := {| calls := 0; trace := [] |} |}.

Inductive run_result :=
| ErrorSignal (msg : string)      (* [self.error.emit(msg)] *)
| OverflowError                   (* uncaught, from line 77 or 78 *)
| KeyError                        (* uncaught, from line 86 *)
| Finished (st : state)           (* [self.finished.emit(orders)] *)
| OutOfFuel (st : state).         (* still paginating when the fuel ran out *)

(** [FetchOrdersThread.run]; [load_config] is the value [load_config()]
    returns, [None] for the empty dict. After an uncaught exception no
    signal is emitted. *)
Definition run (fuel : nat) (w : world) (load_config : option config)
    (self : FetchOrdersThread) : run_result :=
  match load_config with
  | None => ErrorSignal "Configuração inválida"
  | Some c =>
      match date_filter_of (start_date self) (end_date self) with
      | None => OverflowError
      | Some date_filter =>
          match status_map (status_filter self) with
          | None => KeyError
          | Some statuses =>
              match for_statuses fuel w c statuses date_filter statuses initial_state with
              | (st, true) => Finished st
              | (st, false) => OutOfFuel st
              end
          end
      end
  end.

End Api.

(** ** utils.py *)

Module Utils.
Import Http Api.

(** A value [json.load] returns. The values of an object are strings, as
    the three that [run] reads are; of an array only its string items
    matter, no other item being equal to a key. *)
Inductive json_value :=
| Dict (config : gmap string string)
| List (items : list string)
| Str (text : string)
| Scalar (truthy : bool).                  (* a number, [true], [false], [null] *)

(** What [config.json] is when [load_config] runs. *)
Inductive config_file :=
| Absent                                   (* [os.path.exists] is false *)
| Unreadable                               (* [open] or the decoding raises *)
| Invalid                                  (* [json.load] raises [JSONDecodeError] *)
| Json (config : json_value).

Definition required_keys : list string := ["vtex_account"; "app_key"; "app_token"].

(** [key in config]; [None]: [TypeError], the value is not a container. *)
Definition has_key (config : json_value) (key : string) : option bool :=
  match config with
  | Dict d => Some (bool_decide (key ∈ dom d))
  | List items => Some (bool_decide (key ∈ items))
  | Str text => Some (Py.contains key text)
  | Scalar _ => None
  end.

(** [all(key in config for key in required_keys)], which stops at the first
    key that is missing. *)
Fixpoint all_keys (config : json_value) (keys : list string) : option bool :=
  match keys with
  | [] => Some true
  | key :: rest =>
      match has_key config key with
      | None => None
      | Some false => Some false
      | Some true => all_keys config rest
      end
  end.

(** [load_config]: the empty dict stands for the failures it handles;
    [None] is an exception it lets through. *)
Definition load_config (f : config_file) : option json_value :=
  match f with
  | Absent => Some (Dict ∅)
  | Unreadable => None
  | Invalid => Some (Dict ∅)
  | Json config =>
      match all_keys config required_keys with
      | None => None
      | Some false => Some (Dict ∅)
      | Some true => Some config
      end
  end.

(** Lines 63-72 of api.py on the value [load_config] returned: [not config]
    is true of an empty container and of a falsy scalar, [config[key]]
    raises [KeyError] on a dict without the key and [TypeError] on any other
    value. *)
Inductive config_reading :=
| EmptyConfig
| MissingKey
| NotADict
| Keys (c : config).

Definition read_config (config : json_value) : config_reading :=
  match config with
  | Dict d =>
      if bool_decide (d = ∅) then EmptyConfig
      else match d !! "vtex_account", d !! "app_key", d !! "app_token" with
           | Some account, Some key, Some token =>
               Keys {| vtex_account := account; app_key := key; app_token := token |}
           | _, _, _ => MissingKey
           end
  | List items => if bool_decide (items = []) then EmptyConfig else NotADict
  | Str text => if bool_decide (text = "") then EmptyConfig else NotADict
  | Scalar truthy => if truthy then NotADict else EmptyConfig
  end.

(** How the thread ends: as [run] does, or on an exception of the
    configuration that nothing catches. *)
Inductive thread_result :=
| Uncaught
| Ran (r : run_result).

(** [FetchOrdersThread.run] with [load_config] reading the given file. *)
Definition run_from_file (fuel : nat) (w : world) (f : config_file)
    (self : FetchOrdersThread) : thread_result :=
  match load_config f with
  | None => Uncaught
  | Some config =>
      match read_config config with
      | EmptyConfig => Ran (run fuel w None self)
      | MissingKey => Ran KeyError
      | NotADict => Uncaught
      | Keys c => Ran (run fuel w (Some c) self)
      end
  end.

(** [start_date <= d] on two dates: year, month and day in that order. *)
Definition date_le (a b : Datetime.date) : bool :=
  (Datetime.year a <? Datetime.year b)
  || ((Datetime.year a =? Datetime.year b)
      && ((Datetime.month a <? Datetime.month b)
          || ((Datetime.month a =? Datetime.month b)
              && (Datetime.day a <=? Datetime.day b)))).

(** [is_date_in_brazil_interval]. An aware datetime is its instant, in
    microseconds since 1970-01-01T00:00:00Z; [utcoffset] is the offset, in
    seconds, that America/Sao_Paulo has at a UTC second, which is what
    [astimezone] with a pytz zone applies. *)
Definition is_date_in_brazil_interval (utcoffset : Z → Z) (dt : Z)
    (start_date end_date : Datetime.date) : bool :=
  let utc := dt / 1000000 in
  let dt_brazil := Datetime.civil_from_days ((utc + utcoffset utc) / 86400) in
  date_le start_date dt_brazil && date_le dt_brazil end_date.

End Utils.

(** ** ui.py, the part of [OrdersDashboard] that consumes the result *)

Module Ui.
Import Json Http Api.

(** The items of the status combo box of [FilterDialog], one of which
    [get_filters] returns as the status filter. *)
Definition status_items : list string := ["Todos"; "Faturado"; "Pronto para Manuseio"].

(** [max(a, b)] on two floats: [b] only when it is greater. *)
Definition max (a b : float) : float := if PrimFloat.ltb a b then b else a.

(** One row of the table, with the key it is sorted by. *)
Record row := {
  id_do_pedido : string;
  data_de_criacao : string;
  row_status : string;
  valor_do_pedido : string;
  creation_date_raw : Z }.

(** What [update_table] shows: the rows and the two subtotals. *)
Record table := { rows : list row; subtotal : float; freight_subtotal : float }.

(** [orders_data.sort(key=...)]: a stable sort by creation instant. *)
Fixpoint insert_row (r : row) (l : list row) : list row :=
  match l with
  | [] => [r]
  | x :: l' =>
      if creation_date_raw r <=? creation_date_raw x then r :: l
      else x :: insert_row r l'
  end.

Definition sort_rows (l : list row) : list row := foldr insert_row [] l.

Section dashboard.
(** The library functions the dashboard calls: [str.lower],
    [dateutil.parser.isoparse] ([None]: [ValueError]; otherwise the instant
    of the aware datetime, in microseconds), the America/Sao_Paulo offset at
    a UTC second, [strftime] of the instant in that zone, and
    [utils.format_currency]. *)
Context (lower : string → string).
Context (isoparse : string → option Z).
Context (utcoffset : Z → Z).
Context (strftime_brazil : Z → string).
Context (format_currency : float → string).

(** Lines 268-271: the list comprehension; [order['orderId']] raises on a
    record without the key ([None]). *)
Fixpoint matching (search_text : string) (all_orders : list order)
    : option (list order) :=
  match all_orders with
  | [] => Some []
  | order :: rest =>
      match orderId order with
      | None => None
      | Some i =>
          let keep := Py.contains search_text (lower i) in
          rest' ← matching search_text rest;
          Some (if keep then order :: rest' else rest')
      end
  end.

(** [apply_search_filter], up to the call of [update_table]: the new
    [self.orders], or [None] when an exception escapes. *)
Definition apply_search_filter (search_bar_text : string) (all_orders : list order)
    : option (list order) :=
  let search_text := lower search_bar_text in
  if bool_decide (all_orders = []) then Some []
  else matching search_text all_orders.

(** Line 300: [order.get('totalValue', 0) / 100]; [None] is the TypeError
    of a value that is not a number. *)
Definition order_value_of (o : order) : option float :=
  div_100 (default (JInt 0) (totalValue o)).

(** Line 301: [order.get('shippingListPrice', order.get('shippingValue', 0)) / 100]. *)
Definition shipping_list_price_of (o : order) : option float :=
  match shippingListPrice o with
  | Some x => Some (PrimFloat.div x 100)
  | None =>
      match shippingValue o with
      | Some y => Some (PrimFloat.div y 100)
      | None => Py.truediv 0 100
      end
  end.

(** Line 303. *)
Definition display_value_of (include_freight : bool)
    (order_value shipping_list_price : float) : float :=
  if include_freight then order_value
  else max 0%float (PrimFloat.sub order_value shipping_list_price).

(** Lines 293-314: the loop over [self.orders]. [None] is an exception
    that escapes, the handler catching [ValueError] only: the KeyError of
    [order['creationDate']], of [order['orderId']] or [order['status']]
    when the row is built, of [order['orderId']] in the handler, or the
    TypeError of a total value that is not a number. *)
Fixpoint table_loop (start_date end_date : Datetime.date) (include_freight : bool)
    (orders : list order) (acc : table) : option table :=
  match orders with
  | [] => Some acc
  | order :: rest =>
      text ← creationDate order;
      match isoparse text with
      | None =>
          match orderId order with
          | None => None
          | Some _ => table_loop start_date end_date include_freight rest acc
          end
      | Some creation_date =>
          if negb (Utils.is_date_in_brazil_interval utcoffset creation_date
                     start_date end_date)
          then table_loop start_date end_date include_freight rest acc
          else
            order_value ← order_value_of order;
            shipping_list_price ← shipping_list_price_of order;
            let freight := PrimFloat.add (freight_subtotal acc) shipping_list_price in
            let display_value :=
              display_value_of include_freight order_value shipping_list_price in
            let sub := PrimFloat.add (subtotal acc) display_value in
            match orderId order, status order with
            | Some i, Some s =>
                table_loop start_date end_date include_freight rest
                  {| rows := rows acc ++
                       [ {| id_do_pedido := i;
                            data_de_criacao := strftime_brazil creation_date;
                            row_status := s;
                            valor_do_pedido := format_currency display_value;
                            creation_date_raw := creation_date |} ];
                     subtotal := sub; freight_subtotal := freight |}
            | _, _ => None
            end
      end
  end.

(** [update_table], up to the widgets: the sorted rows and the subtotals. *)
Definition update_table (start_date end_date : Datetime.date) (include_freight : bool)
    (orders : list order) : option table :=
  t ← table_loop start_date end_date include_freight orders
         {| rows := []; subtotal := 0%float; freight_subtotal := 0%float |};
  Some {| rows := sort_rows (rows t); subtotal := subtotal t;
          freight_subtotal := freight_subtotal t |}.

(** [on_fetch_finished]: the emitted orders become [all_orders], the search
    text is applied and the table is drawn. *)
Definition on_fetch_finished (search_bar_text : string)
    (start_date end_date : Datetime.date) (include_freight : bool)
    (orders : list order) : option table :=
  shown ← apply_search_filter search_bar_text orders;
  update_table start_date end_date include_freight shown.

End dashboard.
End Ui.

(** ** Scripted worlds for the concrete runs below *)

Module Scenario.
Import Json Http Api.

Definition cfg : config :=
  {| vtex_account := "loja"; app_key := "key"; app_token := "token" |}.

Definition mk_order (oid : option string) (st : string) : order :=
  {| orderId := oid; status := Some st;
     creationDate := Some "2025-04-24T12:00:00+00:00";
     totalValue := Some (JInt 10000); shippingValue := None;
     shippingListPrice := None |}.

(** A 200 response with a JSON body. *)
Definition ok {A} (body : A) : outcome A :=
  Got {| status_code := 200; json := Some body |}.

(** A response with the given status code. *)
Definition http {A} (code : Z) : outcome A :=
  Got {| status_code := code; json := None |}.

Definition page_of (n : Z) (os : list order) : outcome listing_data :=
  ok {| l_paging := Some {| total := Some n |}; l_list := Some os |}.

(** An order-detail body with the shippingValue key only. *)
Definition shipping_body (v : Z) : jvalue := obj [("shippingValue", JInt v)].

Definition shipping (v : Z) : outcome jvalue := ok (shipping_body v).

(** The answer to each request of a run, in the order the requests are made. *)
Inductive answer :=
| Listing (o : outcome listing_data)
| Detail (o : outcome jvalue).

Definition scripted (script : list answer) : world :=
  {| list_api n _ _ :=
       match script !! n with Some (Listing o) => o | _ => RequestException end;
     detail_api n _ :=
       match script !! n with Some (Detail o) => o | _ => RequestException end |}.

Definition day : Datetime.date := Datetime.Date 2025 4 24.

Definition thread (status_filter : string) : FetchOrdersThread :=
  {| start_date := day; end_date := day; status_filter := status_filter |}.

(** [n] orders with ids prefix000, prefix001, ... counted from [first], all
    of status [st]. *)
Definition batch (prefix : string) (first n : nat) (st : string) : list order :=
  (fun i => mk_order (Some (prefix +:+ Py.pad 3 (Z.of_nat i))) st) <$> seq first n.

(** The state a finished or interrupted run ends in. *)
Definition result_state (r : run_result) : state :=
  match r with
  | Finished st | OutOfFuel st => st
  | ErrorSignal _ | OverflowError | KeyError => initial_state
  end.

(** The run reached [self.finished.emit]. *)
Definition finished (r : run_result) : bool :=
  match r with Finished _ => true | _ => false end.

(** Both statuses list order b; two records have no orderId; one record has
    a status that was not requested; the lookup of order c is rate limited
    three times. *)
Definition overlap : world :=
  scripted
    [ Listing (page_of 2 [mk_order (Some "a") "invoiced"; mk_order (Some "b") "invoiced"]);
      Detail (shipping 1500); Detail (shipping 0);
      Listing (page_of 3 [mk_order (Some "b") "ready-for-handling";
                          mk_order (Some "c") "ready-for-handling";
                          mk_order None "ready-for-handling";
                          mk_order None "ready-for-handling";
                          mk_order (Some "z") "canceled"]);
      Detail (http 429); Detail (http 429); Detail (http 429);
      Detail (shipping 990) ].

(** The second page of invoiced has no list key; the first page is full. *)
Definition malformed_body : listing_data :=
  {| l_paging := Some {| total := Some 150 |}; l_list := None |}.

Definition malformed_second_page : world :=
  {| list_api _ _ p :=
       if bool_decide (orderStatus p = "invoiced")
       then if page p =? 1 then page_of 150 (batch "i" 0 100 "invoiced")
            else ok malformed_body
       else page_of 2 (batch "r" 0 2 "ready-for-handling");
     detail_api _ _ := shipping 1200 |}.

(** 150 invoiced orders on two pages, each page reporting the total 150. *)
Definition two_pages : world :=
  {| list_api _ _ p :=
       if page p =? 1 then page_of 150 (batch "o" 0 100 "invoiced")
       else page_of 150 (batch "o" 100 50 "invoiced");
     detail_api _ _ := shipping 1200 |}.

(** A full first page, a second page whose every request times out, and a
    third page with one more order. *)
Definition timeout_on_page2 : world :=
  {| list_api _ _ p :=
       if page p =? 1 then page_of 101 (batch "o" 0 100 "invoiced")
       else if page p =? 2 then RequestException
       else page_of 101 [mk_order (Some "late") "invoiced"];
     detail_api _ _ := shipping 1200 |}.


(** An order whose detail reports a negative list price in its second
    logistics-info entry. *)
Definition negative_list_price_body : jvalue :=
  obj [("shippingValue", JInt 1200);
       ("shippingData",
        obj [("logisticsInfo", JArr [obj []; obj [("listPrice", JInt (-500))]])])].




(** Two invoiced orders; every detail lookup answers a shipping value of
    1200 cents and no logistics info. *)
Definition flat_rate : world :=
  {| list_api _ _ _ :=
       page_of 2 [mk_order (Some "a") "invoiced"; mk_order (Some "b") "invoiced"];
     detail_api _ _ := shipping 1200 |}.

(** Every listing request is answered by a full page of canceled orders. *)
Definition endless : world :=
  {| list_api _ _ _ := page_of 100 (batch "x" 0 100 "canceled");
     detail_api _ _ := shipping 1200 |}.

(** A page request is rate limited once and then answered. *)
Definition rate_limited_once : world :=
  scripted
    [ Listing (http 429);
      Listing (page_of 1 [mk_order (Some "a") "invoiced"]);
      Detail (shipping 1200) ].

(** The three attempts of the first page fail in three ways. *)
Definition first_page_fails : world :=
  scripted [ Listing (http 429); Listing RequestException; Listing (http 500) ].

(** A lookup that fails twice before it is answered. *)
Definition third_time_lucky : world :=
  scripted [ Detail (http 429); Detail RequestException; Detail (shipping 1500) ].

(** A 200 body whose shippingData is null. *)
Definition null_shipping_data_body : jvalue :=
  obj [("shippingValue", JInt 1200); ("shippingData", JNull)].

(** Two invoiced orders, the detail of the first with a null shippingData;
    one order ready for handling. *)
Definition null_shipping_data : world :=
  scripted
    [ Listing (page_of 2 [mk_order (Some "a") "invoiced"; mk_order (Some "b") "invoiced"]);
      Detail (ok null_shipping_data_body);
      Listing (page_of 1 [mk_order (Some "c") "ready-for-handling"]);
      Detail (shipping 990) ].

End Scenario.

(** ** A dashboard for the concrete tables below *)

Module DashboardScenario.
Import Json Http Api Utils Ui.

(** [str.lower] on ASCII letters. *)
Definition lower_ascii (c : ascii) : ascii :=
  let n := nat_of_ascii c in
  if ((65 <=? n) && (n <=? 90))%nat then ascii_of_nat (n + 32) else c.

Fixpoint lower (s : string) : string :=
  match s with
  | EmptyString => EmptyString
  | String c s' => String (lower_ascii c) (lower s')
  end.

(** [isoparse] on the creation dates of the scripted orders: noon UTC of
    2025-04-24 is 1745496000 seconds after the epoch. *)
Definition isoparse (s : string) : option Z :=
  if bool_decide (s = "2025-04-24T12:00:00+00:00") then Some 1745496000000000
  else if bool_decide (s = "2025-04-25T02:30:00+00:00") then Some 1745548200000000
  else None.

(** America/Sao_Paulo since 2019: three hours behind UTC. *)
Definition utcoffset (utc : Z) : Z := -10800.

Definition strftime_brazil (dt : Z) : string := "".
Definition format_currency (value : float) : string := "".

Definition april_24 : Datetime.date :=
  {| Datetime.year := 2025; Datetime.month := 4; Datetime.day := 24 |}.

(** An order created at 02:30 UTC on 25 April, 23:30 of the 24th in Brazil. *)
Definition late_order : order :=
  {| orderId := Some "Z-9"; status := Some "invoiced";
     creationDate := Some "2025-04-25T02:30:00+00:00";
     totalValue := Some (JInt 5000);
     shippingValue := None; shippingListPrice := Some 9000%float |}.

Definition noon_order : order := Scenario.mk_order (Some "Ab-1") "invoiced".

(** A listing record without a creationDate key. *)
Definition undated_order : order :=
  {| orderId := Some "U-1"; status := Some "invoiced"; creationDate := None;
     totalValue := Some (JInt 5000); shippingValue := None;
     shippingListPrice := None |}.

(** The listing serves the undated record; its lookup succeeds. *)
Definition undated : world :=
  Scenario.scripted
    [ Scenario.Listing (Scenario.page_of 1 [undated_order]);
      Scenario.Detail (Scenario.shipping 1200) ].

(** The dashboard's slot and table with these library functions. *)
Definition on_fetch_finished :=
  Ui.on_fetch_finished lower isoparse utcoffset strftime_brazil format_currency.

Definition update_table :=
  Ui.update_table isoparse utcoffset strftime_brazil format_currency.

Definition empty_table : table :=
  {| rows := []; subtotal := 0%float; freight_subtotal := 0%float |}.

End DashboardScenario.

(** ** Notions used by the statements *)

Module Notions.
Import Json Http Api.

(** The status check of line 135 lets the record through. *)
Definition accepted (statuses : list string) (o : order) : Prop :=
  default "unknown" (status o) ∈ statuses.

(** An attempt of a detail lookup fails: [requests.get] raises, or the
    response is a 429, or [raise_for_status] or [json] raises. *)
Definition attempt_fails (a : outcome jvalue) : Prop :=
  match a with
  | RequestException => True
  | Got r => status_code r = 429 ∨ raises_for_status r = true ∨ json r = None
  end.


(** An attempt of a detail lookup is answered with the JSON body [data]:
    the response is no 429 and no HTTP error. *)
Definition attempt_succeeds (a : outcome jvalue) (data : jvalue) : Prop :=
  ∃ r, a = Got r ∧ status_code r ≠ 429 ∧ raises_for_status r = false
       ∧ json r = Some data.

(** The lookup that starts as request number [n] is answered, at one of its
    three attempts and after failed ones, with a body on which lines 22-42
    raise. *)
Definition answered_with_bad_body (w : world) (n : nat) (url : string) : Prop :=
  ∃ (k : nat) data,
    (k < 3)%nat
    ∧ (∀ j : nat, (j < k)%nat → attempt_fails (detail_api w (n + j) url))
    ∧ attempt_succeeds (detail_api w (n + k) url) data
    ∧ parse_details data = None.

(** [P] survives every loop of the pipeline, whatever the remote side
    answers: once it holds it holds of the state the loop ends in. The state
    [run] emits is the one [for_statuses] ends in. *)
Definition kept (w : world) (c : config) (statuses : list string)
    (P : state → Prop) : Prop :=
  (∀ os st, P st → P (state_of (process_orders w c statuses os st))) ∧
  (∀ p st, P st → P (state_of (page_iter w c statuses p st))) ∧
  (∀ fuel p st, P st → P (paginate fuel w c statuses p st).1) ∧
  (∀ fuel df todo st, P st → P (for_statuses fuel w c statuses df todo st).1).

(** The invariant of the result list and the seen-id set. *)
Record consistent (statuses : list string) (st : state) : Prop := {
  ids_unique : NoDup (orderId <$> orders st);
  ids_seen : ∀ i, i ∈ order_ids st ↔ i ∈ orderId <$> orders st;
  all_accepted : Forall (accepted statuses) (orders st) }.

(** The events a detail lookup leaves in the trace. *)
Definition lookup_event (url : string) (e : event) : Prop :=
  match e with
  | EvGetDetail u => u = url
  | EvSleep n => n = 1 ∨ n = 2 ∨ n = 4
  | _ => False
  end.

(** The progress values of a trace, oldest first. *)
Definition progress_values (tr : list event) : list Z :=
  omap (fun e => match e with EvProgress p => Some p | _ => None end) tr.

(** The listing requests of a trace as (status, page), oldest first. *)
Definition listing_requests (tr : list event) : list (string * Z) :=
  omap (fun e => match e with
                 | EvGetList _ p => Some (orderStatus p, page p)
                 | _ => None end) tr.

Definition sleeps (tr : list event) : list Z :=
  omap (fun e => match e with EvSleep n => Some n | _ => None end) tr.










(** The date filter the spec describes for dates since 2019: start of day and
    end of day at the offset in force in America/Sao_Paulo, in UTC. *)
Definition spec_date_filter (start_date end_date : Datetime.date) : option string :=
  let tz := {| Datetime.zone := "America/Sao_Paulo";
               Datetime.own_utcoffset := Datetime.Sao_Paulo_standard_offset |} in
  let start_dt := Datetime.combine start_date Datetime.min_time tz in
  let end_dt := Datetime.combine end_date Datetime.max_time tz in
  start_utc ← Datetime.astimezone_utc start_dt;
  end_utc ← Datetime.astimezone_utc end_dt;
  Some (filter_text start_utc end_utc).

(** A float is not negative; NaN and both zeros count as not negative. *)
Definition not_negative (x : float) : Prop := PrimFloat.ltb x 0%float = false.

Definition sf_not_negative (x : spec_float) : Prop :=
  match x with
  | S754_finite s _ _ | S754_infinity s => s = false
  | S754_zero _ | S754_nan => True
  end.


(** The entry has no listPrice key, as line 36 tests it. *)
Definition without_list_price (item : jvalue) : Prop := has "listPrice" item = Some false.



(** The totals entry is not the shipping total, as line 27 tests it. *)
Definition not_shipping (total : jvalue) : Prop :=
  ∃ i, get total "id" JNull = Some i ∧ eq_str i "Shipping" = false.




(** Every JSON body the detail endpoint serves at [url] satisfies [Q]. *)
Definition detail_bodies (w : world) (url : string) (Q : jvalue → Prop) : Prop :=
  ∀ n r data, detail_api w n url = Got r → json r = Some data → Q data.

(** The listing endpoint never serves a full page of 100 records. *)
Definition short_pages (w : world) : Prop :=
  ∀ n url p r data os,
    list_api w n url p = Got r → json r = Some data → l_list data = Some os →
    (length os < 100)%nat.

(** The response held in [response], if any, is not a full page. *)
Definition short_response (st : state) : Prop :=
  ∀ r data os,
    response st = Some r → json r = Some data → l_list data = Some os →
    (length os < 100)%nat.

(** The detail URLs requested in a trace, oldest first. *)
Definition detail_requests (tr : list event) : list string :=
  omap (fun e => match e with EvGetDetail u => Some u | _ => None end) tr.

(** The listing requests of a trace with their URL and parameters. *)
Definition listing_events (tr : list event) : list (string * params) :=
  omap (fun e => match e with EvGetList u p => Some (u, p) | _ => None end) tr.

(** Seconds spent in [time.sleep] over a trace. *)
Definition slept (tr : list event) : Z := foldr Z.add 0 (sleeps tr).

(** A listing request as [run] builds it. *)
Definition well_formed_request (c : config) (df : string) (statuses : list string)
    (req : string * params) : Prop :=
  req.1 = orders_url c ∧ per_page req.2 = 100 ∧ f_creationDate req.2 = df
  ∧ orderBy req.2 = "creationDate,asc" ∧ orderStatus req.2 ∈ statuses
  ∧ 1 <= page req.2.

(** The listing endpoint serves a page that contains [o]. *)
Definition listed (w : world) (o : order) : Prop :=
  ∃ n url p r data os,
    list_api w n url p = Got r ∧ json r = Some data ∧ l_list data = Some os ∧ o ∈ os.

(** The listing endpoint serves the response [r]. *)
Definition served (w : world) (r : Http.response listing_data) : Prop :=
  ∃ n url p, list_api w n url p = Got r.

(** The figures are the zeros of a failed lookup or those of a body the
    detail endpoint serves at the order's URL. *)
Definition lookup_figures (w : world) (c : config) (o : order) (figures : float * float)
    : Prop :=
  figures = (0%float, 0%float)
  ∨ ∃ n r data, detail_api w n (detail_url c (orderId o)) = Got r
                ∧ json r = Some data ∧ parse_details data = Some figures.

(** The held response and every collected order come from the remote side. *)
Definition traceable (w : world) (c : config) (st : state) : Prop :=
  (∀ r, response st = Some r → served w r)
  ∧ Forall (fun o' => ∃ o sv slp,
              listed w o ∧ lookup_figures w c o (sv, slp) ∧ o' = enrich o sv slp)
           (orders st).

(** An attempt of a page request fails: [requests.get] raises, or the
    response is a 429, or [raise_for_status] raises. *)
Definition page_attempt_fails (a : outcome listing_data) : Prop :=
  match a with
  | RequestException => True
  | Got r => status_code r = 429 ∨ raises_for_status r = true
  end.

(** Every listing request is answered by a 200 with at least 100 records,
    none of a requested status. *)
Definition full_unrequested_pages (w : world) (statuses : list string) : Prop :=
  ∀ n url p, ∃ r data pg os,
    list_api w n url p = Got r ∧ status_code r = 200 ∧ json r = Some data
    ∧ l_paging data = Some pg ∧ l_list data = Some os
    ∧ (100 ≤ length os)%nat ∧ Forall (fun o => ¬ accepted statuses o) os.

(** [response] is unbound or holds a response that is not a 200. *)
Definition holds_no_200 (st : state) : Prop :=
  ∀ r, response st = Some r → status_code r ≠ 200.

(** The detail requests so far are at least the orders collected and at
    most three for each of them and three for each of [n] further lookups. *)
Definition requests_within (n : nat) (st : state) : Prop :=
  (length (orders st) ≤ length (detail_requests (trace (st_io st)))
   ≤ 3 * (length (orders st) + n))%nat.

(** Number of result records without an orderId. *)
Definition without_id (os : list order) : nat :=
  length (filter (fun o => orderId o = None) os).


End Notions.

(** ** Binary64 values as reals *)

Module Binary64.

(** [2 ^ e] as a real. *)
Definition bpow (e : Z) : R := powerRZ 2 e.

(** The real [m * 2 ^ e]. *)
Definition F2R (m e : Z) : R := (IZR m * bpow e)%R.




End Binary64.

(** ** Notions the statements about the dashboard use *)

Module UiNotions.
Import Json Http Api Utils Ui.

(** The row [r] stands before [r'] or at the same instant. *)
Definition by_creation (r r' : row) : Prop :=
  creation_date_raw r <= creation_date_raw r'.

(** The creation date of [o] parses to the instant [d], which falls in the
    interval of the two date edits. *)
Definition in_interval (isoparse : string → option Z) (utcoffset : Z → Z)
    (start_date end_date : Datetime.date) (o : order) (d : Z) : Prop :=
  (∃ text, creationDate o = Some text ∧ isoparse text = Some d)
  ∧ is_date_in_brazil_interval utcoffset d start_date end_date = true.

(** The row [r] shows the order [o]. *)
Definition row_of (o : order) (r : row) : Prop :=
  orderId o = Some (id_do_pedido r) ∧ status o = Some (row_status r).

(** The search box keeps [o]: its lowered id contains the lowered text. *)
Definition searched (lower : string → string) (search_bar_text : string)
    (o : order) : Prop :=
  ∃ i, orderId o = Some i ∧ Py.contains (lower search_bar_text) (lower i) = true.

(** The value the row of [o] shows is [value]. *)
Definition value_shown (include_freight : bool) (o : order) (value : float) : Prop :=
  ∃ order_value shipping_list_price,
    order_value_of o = Some order_value
    ∧ shipping_list_price_of o = Some shipping_list_price
    ∧ value = display_value_of include_freight order_value shipping_list_price.

(** The loop of [update_table] gets past the record [o]: it has a creation
    date, and when that date parses and falls in the interval, a total
    value that is a number (or none). *)
Definition drawable (isoparse : string → option Z) (utcoffset : Z → Z)
    (start_date end_date : Datetime.date) (o : order) : Prop :=
  is_Some (creationDate o)
  ∧ ((∃ d, in_interval isoparse utcoffset start_date end_date o d) →
     is_Some (order_value_of o)).

End UiNotions.

Import Json Http Api Notions.

(** ** What every loop of the pipeline preserves *)

Section Preservation.
Context (w : world) (c : config) (statuses : list string).
Variable P : state → Prop.
Hypothesis P_request : ∀ url p st,
  P st → P (with_io (request (EvGetList url p) (st_io st)) st).
Hypothesis P_sleep : ∀ n st, P st → P (with_io (sleep n (st_io st)) st).
Hypothesis P_response : ∀ r st, P st → P (with_response r st).
Hypothesis P_total : ∀ n st, P st → P (add_total n st).
Hypothesis P_lookup : ∀ st o,
  accepted statuses o → orderId o ∉ order_ids st → P st →
  (fetch_order_details w (orderId o) c (st_io st)).1 = None →
  P (with_io (fetch_order_details w (orderId o) c (st_io st)).2 st).
Hypothesis P_append : ∀ st o sv slp,
  accepted statuses o → orderId o ∉ order_ids st → P st →
  (fetch_order_details w (orderId o) c (st_io st)).1 = Some (sv, slp) →
  P (append_order st o sv slp (fetch_order_details w (orderId o) c (st_io st)).2).
Hypothesis P_progress : ∀ st percent,
  0 < total_expected st →
  progress_percent (orders_fetched st) (total_expected st) = Some percent →
  P st → P (with_io (log (EvProgress percent) (st_io st)) st).

Lemma fetch_page_loop_preserves url p m attempts st :
  P st → P (fetch_page_loop w url p m attempts st).
Proof using P_request P_sleep P_response.
  revert st. induction attempts as [|a rest IH]; intros st HP; [done|].
  cbn [fetch_page_loop].
  destruct (list_api w _ url p) as [|r].
  - destruct (a =? m - 1); auto.
  - destruct (status_code r =? 429); [auto|].
    destruct (raises_for_status r); [|auto].
    destruct (a =? m - 1); auto.
Qed.

Lemma process_order_preserves st o :
  P st → P (state_of (process_order w c statuses st o)).
Proof using P_lookup P_append P_progress.
  intros HP. unfold process_order.
  destruct (bool_decide (default "unknown" (status o) ∈ statuses)) eqn:Hacc;
    cbn [negb]; [|done].
  destruct (bool_decide (orderId o ∈ order_ids st)) eqn:Hseen; [done|].
  apply bool_decide_eq_true in Hacc. apply bool_decide_eq_false in Hseen.
  pose proof (P_lookup st o Hacc Hseen HP) as HP0.
  pose proof (P_append st o) as HP1.
  destruct (fetch_order_details w (orderId o) c (st_io st)) as [[[sv slp]|] s];
    cbn [fst snd state_of] in *; [|by apply HP0].
  specialize (HP1 sv slp Hacc Hseen HP eq_refl).
  destruct (0 <? _) eqn:Hpos; [|done].
  destruct (progress_percent _ _) eqn:Hpct; cbn [state_of]; [|done].
  apply P_progress; [by apply Z.ltb_lt|done..].
Qed.

Lemma process_orders_preserves os st :
  P st → P (state_of (process_orders w c statuses os st)).
Proof using P_lookup P_append P_progress.
  revert st. induction os as [|o rest IH]; intros st HP; [done|].
  cbn [process_orders].
  pose proof (process_order_preserves st o HP) as H1.
  destruct (process_order w c statuses st o); cbn [state_of] in *; auto.
Qed.

Lemma page_iter_preserves p st :
  P st → P (state_of (page_iter w c statuses p st)).
Proof using All.
  intros HP. unfold page_iter.
  pose proof (fetch_page_loop_preserves (orders_url c) p 3 (Py.range 3) st HP) as H1.
  destruct (response _) as [r|]; [|done].
  destruct (negb _); [done|].
  destruct (json r) as [data|]; [|done].
  destruct (l_paging data) as [pg|]; [|done].
  destruct (l_list data) as [page_orders|]; [|done].
  pose proof (process_orders_preserves page_orders _ (P_total (default 0 (total pg)) _ H1)) as H2.
  destruct (process_orders _ _ _ _ _); cbn [state_of] in *; [|done..].
  destruct (_ || _); done.
Qed.

Lemma paginate_preserves fuel p st :
  P st → P (paginate fuel w c statuses p st).1.
Proof using All.
  revert p st. induction fuel as [|fuel IH]; intros p st HP; [done|].
  cbn [paginate].
  pose proof (page_iter_preserves p st HP) as H1.
  destruct (page_iter w c statuses p st); cbn [state_of] in *; auto.
Qed.

Lemma for_statuses_preserves fuel df todo st :
  P st → P (for_statuses fuel w c statuses df todo st).1.
Proof using All.
  revert st. induction todo as [|s rest IH]; intros st HP; [done|].
  cbn [for_statuses].
  pose proof (paginate_preserves fuel (first_page df s) st HP) as H1.
  destruct (paginate _ _ _ _ _ _) as [st' [|]]; cbn [fst] in *; auto.
Qed.

Lemma preserved_is_kept : kept w c statuses P.
Proof using All.
  repeat split.
  - apply process_orders_preserves.
  - apply page_iter_preserves.
  - apply paginate_preserves.
  - apply for_statuses_preserves.
Qed.
End Preservation.

(** A property of the result list and the seen-id set alone is kept as soon
    as appending an accepted, unseen order keeps it. *)
Lemma kept_of_orders w c statuses (P : state → Prop) :
  (∀ s st, P st → P (with_io s st)) →
  (∀ r st, P st → P (with_response r st)) →
  (∀ n st, P st → P (add_total n st)) →
  (∀ st o sv slp s, accepted statuses o → orderId o ∉ order_ids st →
     P st → P (append_order st o sv slp s)) →
  kept w c statuses P.
Proof.
  intros Hio Hr Ht Ha. apply preserved_is_kept; auto.
Qed.

(** *** The result list only grows *)

Lemma orders_prefix_kept w c statuses (l : list order) :
  kept w c statuses (fun st => l `prefix_of` orders st).
Proof.
  apply kept_of_orders; try done.
  intros st o sv slp s _ _ Hl. cbn. by apply prefix_app_r.
Qed.

Lemma order_kept w c statuses (o : order) :
  kept w c statuses (fun st => o ∈ orders st).
Proof.
  apply kept_of_orders; try done.
  intros st o' sv slp s _ _ Hl. cbn. apply elem_of_app. by left.
Qed.

(** *** Consistency of the result list and the seen-id set *)

Lemma consistent_initial statuses : consistent statuses initial_state.
Proof.
  split; cbn.
  - constructor.
  - intros i. set_solver.
  - constructor.
Qed.

Lemma consistent_append statuses st o sv slp s :
  accepted statuses o → orderId o ∉ order_ids st →
  consistent statuses st → consistent statuses (append_order st o sv slp s).
Proof.
  intros Hacc Hseen [Hnd Hids Hall]. split; cbn.
  - rewrite fmap_app. apply NoDup_app. split; [done|]. split.
    + intros i Hi Hi'. apply list_elem_of_singleton in Hi'. subst i.
      apply Hseen, Hids, Hi.
    + cbn. apply NoDup_singleton.
  - intros i. rewrite fmap_app, elem_of_app, elem_of_union, elem_of_singleton.
    cbn. rewrite list_elem_of_singleton, Hids. tauto.
  - apply Forall_app. split; [done|]. by repeat constructor.
Qed.

Lemma consistent_kept w c statuses : kept w c statuses (consistent statuses).
Proof.
  apply kept_of_orders.
  - by intros s st [].
  - by intros r st [].
  - by intros n st [].
  - intros. by apply consistent_append.
Qed.

Lemma run_states fuel w cfg self st :
  run fuel w cfg self = Finished st ∨ run fuel w cfg self = OutOfFuel st →
  ∃ c statuses df,
    cfg = Some c ∧ status_map (status_filter self) = Some statuses
    ∧ date_filter_of (start_date self) (end_date self) = Some df
    ∧ st = (for_statuses fuel w c statuses df statuses initial_state).1.
Proof.
  unfold run. destruct cfg as [c|]; [|by intros [|]].
  destruct (date_filter_of _ _) as [df|]; [|by intros [|]].
  destruct (status_map _) as [statuses|]; [|by intros [|]].
  destruct (for_statuses _ _ _ _ _ _ _) as [st' [|]] eqn:E;
    intros [[= ->]|[= ->]]; exists c, statuses, df; by rewrite E.
Qed.

Lemma run_consistent fuel w cfg self st :
  run fuel w cfg self = Finished st →
  ∃ statuses, status_map (status_filter self) = Some statuses
              ∧ consistent statuses st.
Proof.
  intros Hrun.
  destruct (run_states fuel w cfg self st) as (c & statuses & df & _ & Hmap & _ & ->);
    [by left|].
  exists statuses. split; [done|].
  apply consistent_kept, consistent_initial.
Qed.

Lemma status_map_known status_filter statuses :
  status_map status_filter = Some statuses → "unknown" ∉ statuses.
Proof.
  unfold status_map. repeat case_bool_decide; intros [= <-];
    rewrite list_elem_of_In; cbn; intuition congruence.
Qed.

(** ** Fuel *)

(** More fuel does not change the outcome of a loop that was left. *)
Lemma paginate_more_fuel fuel k w c statuses p st st' :
  paginate fuel w c statuses p st = (st', true) →
  paginate (fuel + k) w c statuses p st = (st', true).
Proof.
  revert p st. induction fuel as [|fuel IH]; intros p st; [done|].
  cbn [paginate Nat.add]. destruct (page_iter w c statuses p st); auto.
Qed.

Lemma for_statuses_more_fuel fuel k w c statuses df todo st st' :
  for_statuses fuel w c statuses df todo st = (st', true) →
  for_statuses (fuel + k) w c statuses df todo st = (st', true).
Proof.
  revert st. induction todo as [|s rest IH]; intros st; [done|].
  cbn [for_statuses].
  destruct (paginate fuel _ _ _ _ _) as [st1 [|]] eqn:Hp; [|done].
  rewrite (paginate_more_fuel _ k _ _ _ _ _ _ Hp). apply IH.
Qed.

Lemma run_more_fuel fuel k w cfg self st :
  run fuel w cfg self = Finished st → run (fuel + k) w cfg self = Finished st.
Proof.
  unfold run. destruct cfg as [c|]; [|done].
  destruct (date_filter_of _ _) as [df|]; [|done].
  destruct (status_map _) as [statuses|]; [|done].
  destruct (for_statuses fuel _ _ _ _ _ _) as [st1 [|]] eqn:Hf; [|done].
  intros [= <-]. by rewrite (for_statuses_more_fuel _ k _ _ _ _ _ _ _ Hf).
Qed.

(** When the endpoint never serves a full page every status is left after
    its first page, and the run finishes. *)
Lemma fetch_page_loop_short w url p m attempts st :
  short_pages w → short_response st →
  short_response (fetch_page_loop w url p m attempts st).
Proof.
  intros Hw. revert st. induction attempts as [|a rest IH]; intros st Hst; [done|].
  cbn [fetch_page_loop].
  destruct (list_api w _ url p) as [|r] eqn:Hr.
  - destruct (a =? m - 1); [done|]. by apply IH.
  - assert (short_response (with_response r (with_io (request (EvGetList url p) (st_io st)) st)))
      as Hnew.
    { intros r' data os [= <-]. by eapply Hw. }
    destruct (status_code r =? 429); [by apply IH|].
    destruct (raises_for_status r); [|done].
    destruct (a =? m - 1); [done|]. by apply IH.
Qed.

Lemma process_orders_response w c statuses os st :
  response (state_of (process_orders w c statuses os st)) = response st.
Proof.
  by apply (process_orders_preserves w c statuses (fun s => response s = response st)).
Qed.

Lemma page_iter_short w c statuses p st :
  short_pages w → short_response st → per_page p = 100 →
  short_response (state_of (page_iter w c statuses p st))
  ∧ ∀ st', page_iter w c statuses p st ≠ Next st'.
Proof.
  intros Hw Hst Hpp. unfold page_iter.
  pose proof (fetch_page_loop_short w (orders_url c) p 3 (Py.range 3) st Hw Hst) as H1.
  destruct (response _) as [r|] eqn:Hr; [|done].
  destruct (negb _); [done|].
  destruct (json r) as [data|] eqn:Hj; [|done].
  destruct (l_paging data) as [pg|]; [|done].
  destruct (l_list data) as [page_orders|] eqn:Hl; [|done].
  pose proof (H1 r data page_orders Hr Hj Hl) as Hlen.
  pose proof (process_orders_response w c statuses page_orders
                (add_total (default 0 (total pg))
                   (fetch_page_loop w (orders_url c) p 3 (Py.range 3) st))) as Hresp.
  assert (∀ s, response s = response (fetch_page_loop w (orders_url c) p 3 (Py.range 3) st) →
               short_response s) as Hkeep.
  { intros s Hs r' data' os'. rewrite Hs. apply H1. }
  destruct (process_orders _ _ _ _ _) as [st3|st3|st3]; cbn [state_of] in *.
  - assert ((Z.of_nat (length page_orders) <? per_page p) = true) as ->
      by (apply Z.ltb_lt; lia).
    rewrite orb_true_r. split; [by apply Hkeep|done].
  - split; [by apply Hkeep|done].
  - split; [by apply Hkeep|done].
Qed.

Lemma for_statuses_short fuel w c statuses df todo st :
  short_pages w → short_response st →
  (for_statuses (S fuel) w c statuses df todo st).2 = true.
Proof.
  intros Hw. revert st. induction todo as [|s rest IH]; intros st Hst; [done|].
  cbn [for_statuses paginate].
  destruct (page_iter_short w c statuses (first_page df s) st Hw Hst eq_refl) as [Hs Hn].
  destruct (page_iter _ _ _ _ _) as [st1|st1|st1]; cbn [state_of] in Hs.
  - by destruct (Hn st1).
  - by apply IH.
  - by apply IH.
Qed.

Lemma run_short_pages fuel w c self statuses df :
  short_pages w → status_map (status_filter self) = Some statuses →
  date_filter_of (start_date self) (end_date self) = Some df →
  ∃ st, run (S fuel) w (Some c) self = Finished st.
Proof.
  intros Hw Hmap Hdf. unfold run. rewrite Hmap, Hdf.
  pose proof (for_statuses_short fuel w c statuses df statuses
                initial_state Hw ltac:(done)) as Hf.
  destruct (for_statuses _ _ _ _ _ _ _) as [st [|]]; cbn in Hf; [|done].
  by exists st.
Qed.

(** ** The seen-id set: uniqueness of order ids *)

Lemma filter_absent {A B} (f : A → B) (x : B) `{∀ a, Decision (f a = x)}
    (l : list A) :
  x ∉ f <$> l → filter (fun a => f a = x) l = [].
Proof.
  induction l as [|a l IH]; [done|]. rewrite fmap_cons. intros Hx.
  rewrite filter_cons. destruct (decide (f a = x)) as [<-|_].
  - exfalso. apply Hx. left.
  - apply IH. intros Hin. apply Hx. by right.
Qed.

Lemma at_most_once {A B} (f : A → B) (x : B) `{∀ a, Decision (f a = x)}
    (l : list A) :
  NoDup (f <$> l) → (length (filter (fun a => f a = x) l) ≤ 1)%nat.
Proof.
  induction l as [|a l IH]; [cbn; lia|]. rewrite fmap_cons.
  intros [Ha Hl]%NoDup_cons. rewrite filter_cons.
  destruct (decide (f a = x)) as [<-|_]; [|by apply IH].
  rewrite (filter_absent f (f a) l Ha). cbn. lia.
Qed.

Lemma seen_is_skipped w c statuses st o :
  orderId o ∈ order_ids st → process_order w c statuses st o = Next st.
Proof.
  intros Hseen. unfold process_order.
  destruct (negb _); [done|]. by rewrite bool_decide_eq_true_2.
Qed.

Lemma unaccepted_is_skipped w c statuses st o :
  ¬ accepted statuses o → process_order w c statuses st o = Next st.
Proof.
  intros Hacc. unfold process_order. by rewrite bool_decide_eq_false_2.
Qed.

(** C1: in the collection a finished run emits every order id occurs once,
    whatever the listing pages contained; a record whose orderId is already
    in the seen-id set is skipped: the state is left as it was. *)
Theorem order_ids_unique fuel w cfg self st :
  run fuel w cfg self = Finished st →
  NoDup (orderId <$> orders st)
  ∧ ∀ c statuses st' o,
      orderId o ∈ order_ids st' → process_order w c statuses st' o = Next st'.
Proof.
  intros Hrun. split.
  - destruct (run_consistent _ _ _ _ _ Hrun) as (statuses & _ & Hc).
    apply (ids_unique _ _ Hc).
  - intros. by apply seen_is_skipped.
Qed.

Lemma order_ids_unique_witness :
  let r := run 5 Scenario.overlap (Some Scenario.cfg) (Scenario.thread "Todos") in
  r = Finished (Scenario.result_state r)
  ∧ orderId <$> orders (Scenario.result_state r) = [Some "a"; Some "b"; Some "c"; None]
  ∧ NoDup (orderId <$> orders (Scenario.result_state r)).
Proof.
  cbv zeta. split; [vm_compute; reflexivity|]. split; [vm_compute; reflexivity|].
  apply (order_ids_unique 5 Scenario.overlap (Some Scenario.cfg) (Scenario.thread "Todos")).
  vm_compute; reflexivity.
Defined.

(** C2: every order a finished run emits carries a status that belongs to
    the list the requested filter expands to; a page record whose status is
    outside that list (or missing) is skipped. *)
Theorem emitted_status_requested fuel w cfg self statuses st :
  status_map (status_filter self) = Some statuses →
  run fuel w cfg self = Finished st →
  (∀ o, o ∈ orders st → ∃ s, status o = Some s ∧ s ∈ statuses)
  ∧ ∀ c st' o,
      ¬ accepted statuses o → process_order w c statuses st' o = Next st'.
Proof.
  intros Hmap Hrun. split.
  - intros o Ho.
    destruct (run_consistent _ _ _ _ _ Hrun) as (statuses' & Hmap' & Hc).
    assert (statuses' = statuses) as -> by congruence.
    pose proof (proj1 (Forall_forall _ _) (all_accepted _ _ Hc) o Ho) as Hacc.
    unfold accepted in Hacc. destruct (status o) as [s|]; cbn in Hacc.
    + by exists s.
    + by apply status_map_known in Hmap.
  - intros. by apply unaccepted_is_skipped.
Qed.

Lemma emitted_status_requested_witness :
  let r := run 5 Scenario.overlap (Some Scenario.cfg) (Scenario.thread "Todos") in
  status_map "Todos" = Some ["invoiced"; "ready-for-handling"]
  ∧ r = Finished (Scenario.result_state r)
  ∧ ∀ o, o ∈ orders (Scenario.result_state r) →
         ∃ s, status o = Some s ∧ s ∈ ["invoiced"; "ready-for-handling"].
Proof.
  cbv zeta. split; [reflexivity|]. split; [vm_compute; reflexivity|].
  apply (emitted_status_requested 5 Scenario.overlap (Some Scenario.cfg)
           (Scenario.thread "Todos") ["invoiced"; "ready-for-handling"]).
  - reflexivity.
  - vm_compute; reflexivity.
Defined.

(** ** The shipping-detail lookup *)

Lemma fetch_order_details_loop_trace w url attempts s :
  Forall (fun a => 0 <= a < 3) attempts →
  ∃ tail,
    trace (fetch_order_details_loop w url 3 attempts s).2 = trace s ++ tail
    ∧ Forall (lookup_event url) tail
    ∧ (attempts ≠ [] → ∃ tail', tail = EvGetDetail url :: tail').
Proof.
  revert s. induction attempts as [|a rest IH]; intros s Ha.
  { exists []. cbn. by rewrite app_nil_r. }
  apply Forall_cons in Ha as [Ha Hrest].
  assert (2 ^ a = 1 ∨ 2 ^ a = 2 ∨ 2 ^ a = 4) as Hpow.
  { assert (a = 0 ∨ a = 1 ∨ a = 2) as [->| [->| ->]] by lia; cbn; tauto. }
  assert (∀ s1, trace s1 = trace s ++ [EvGetDetail url] →
    ∃ tail,
      trace (fetch_order_details_loop w url 3 rest (sleep (2 ^ a) s1)).2 = trace s ++ tail
      ∧ Forall (lookup_event url) tail
      ∧ (a :: rest ≠ [] → ∃ tail', tail = EvGetDetail url :: tail')) as Hnext.
  { intros s1 Hs1.
    destruct (IH (sleep (2 ^ a) s1) Hrest) as (tail & Htr & Hev & _).
    exists (EvGetDetail url :: EvSleep (2 ^ a) :: tail). split; [|split].
    - rewrite Htr. cbn. rewrite Hs1. by rewrite <- !app_assoc.
    - constructor; [done|]. constructor; [exact Hpow | exact Hev].
    - eauto. }
  assert (∃ tail,
      trace (request (EvGetDetail url) s) = trace s ++ tail
      ∧ Forall (lookup_event url) tail
      ∧ (a :: rest ≠ [] → ∃ tail', tail = EvGetDetail url :: tail')) as Hstop.
  { exists [EvGetDetail url]. split; [done|]. split; [by repeat constructor|eauto]. }
  cbn [fetch_order_details_loop].
  destruct (detail_api w (calls s) url) as [|r].
  - destruct (a =? 3 - 1); [apply Hstop | by apply Hnext].
  - destruct (status_code r =? 429); [by apply Hnext|].
    destruct (raises_for_status r).
    { destruct (a =? 3 - 1); [apply Hstop | by apply Hnext]. }
    destruct (json r); [apply Hstop|].
    destruct (a =? 3 - 1); [apply Hstop | by apply Hnext].
Qed.

Lemma fetch_order_details_trace w oid c s :
  ∃ tail,
    trace (fetch_order_details w oid c s).2
      = trace s ++ EvGetDetail (detail_url c oid) :: tail
    ∧ Forall (lookup_event (detail_url c oid)) tail.
Proof.
  unfold fetch_order_details.
  destruct (fetch_order_details_loop_trace w (detail_url c oid) (Py.range 3) s)
    as (tail & Htr & Hev & Hne).
  { repeat constructor; done. }
  destruct Hne as [tail' ->]; [done|].
  exists tail'. split; [done|]. by apply Forall_cons in Hev as [_ ?].
Qed.



(** The lookup lets an exception through only when one of its attempts is
    answered with a body on which lines 22-42 raise. *)
Lemma fetch_order_details_loop_raises w url m attempts s :
  (fetch_order_details_loop w url m attempts s).1 = None →
  ∃ (k : nat) data,
    (k < length attempts)%nat
    ∧ (∀ j : nat, (j < k)%nat → attempt_fails (detail_api w (calls s + j) url))
    ∧ attempt_succeeds (detail_api w (calls s + k) url) data
    ∧ parse_details data = None.
Proof.
  revert s. induction attempts as [|a rest IH]; intros s; [done|].
  assert (attempt_fails (detail_api w (calls s) url) →
    (fetch_order_details_loop w url m rest
       (sleep (2 ^ a) (request (EvGetDetail url) s))).1 = None →
    ∃ (k : nat) data,
      (k < length (a :: rest))%nat
      ∧ (∀ j : nat, (j < k)%nat → attempt_fails (detail_api w (calls s + j) url))
      ∧ attempt_succeeds (detail_api w (calls s + k) url) data
      ∧ parse_details data = None) as Hnext.
  { intros H0 Hnone.
    destruct (IH _ Hnone) as (k & data & Hk & Hfail & Hok & Hbad).
    cbn [sleep log request calls] in Hfail, Hok.
    exists (S k), data. split; [cbn; lia|]. split; [|split; [|done]].
    - intros [|j] Hj; [by rewrite Nat.add_0_r|].
      replace (calls s + S j)%nat with (S (calls s) + j)%nat by lia.
      apply Hfail. lia.
    - by replace (calls s + S k)%nat with (S (calls s) + k)%nat by lia. }
  cbn [fetch_order_details_loop].
  destruct (detail_api w (calls s) url) as [|r] eqn:Hr.
  - destruct (a =? m - 1); [done|]. by apply Hnext.
  - destruct (Z.eqb_spec (status_code r) 429) as [H429|H429].
    { apply Hnext. cbn. by left. }
    destruct (raises_for_status r) eqn:Hraise.
    { destruct (a =? m - 1); [done|]. apply Hnext. cbn. right. by left. }
    destruct (json r) as [data|] eqn:Hj.
    + cbn [fst]. intros Hbad. exists 0%nat, data. split; [cbn; lia|].
      split; [intros j Hj'; lia|]. split; [|done].
      exists r. by rewrite Nat.add_0_r.
    + destruct (a =? m - 1); [done|]. apply Hnext. cbn. right. by right.
Qed.

Lemma fetch_order_details_raises w oid c s :
  (fetch_order_details w oid c s).1 = None →
  answered_with_bad_body w (calls s) (detail_url c oid).
Proof.
  intros Hnone. unfold fetch_order_details in Hnone.
  destruct (fetch_order_details_loop_raises _ _ _ _ _ Hnone)
    as (k & data & Hk & Hfail & Hok & Hbad).
  exists k, data. split; [|done]. apply Hk.
Qed.

(** What [process_order] does with an accepted record whose id is new. *)
Lemma process_order_lookup w c statuses st o :
  accepted statuses o → orderId o ∉ order_ids st →
  let r := fetch_order_details w (orderId o) c (st_io st) in
  process_order w c statuses st o =
    match r.1 with
    | None => Raise (with_io r.2 st)
    | Some (sv, slp) =>
        let st1 := append_order st o sv slp r.2 in
        if 0 <? total_expected st then
          match progress_percent (orders_fetched st + 1) (total_expected st) with
          | Some percent => Next (with_io (log (EvProgress percent) r.2) st1)
          | None => Raise st1
          end
        else Next st1
    end.
Proof.
  intros Hacc Hseen. cbv zeta. unfold process_order.
  rewrite (bool_decide_eq_true_2 _ Hacc), (bool_decide_eq_false_2 _ Hseen).
  cbn [negb]. by destruct (fetch_order_details _ _ _ _) as [[[sv slp]|] s].
Qed.

Lemma process_order_appends_orders w c statuses st o sv slp :
  accepted statuses o → orderId o ∉ order_ids st →
  (fetch_order_details w (orderId o) c (st_io st)).1 = Some (sv, slp) →
  let st' := state_of (process_order w c statuses st o) in
  orders st' = orders st ++ [enrich o sv slp]
  ∧ order_ids st' = {[ orderId o ]} ∪ order_ids st.
Proof.
  intros Hacc Hseen Hr. cbv zeta. rewrite process_order_lookup by done.
  cbv zeta. rewrite Hr.
  destruct (0 <? _); [|done]. by destruct (progress_percent _ _).
Qed.

Lemma process_order_drops w c statuses st o :
  accepted statuses o → orderId o ∉ order_ids st →
  (fetch_order_details w (orderId o) c (st_io st)).1 = None →
  process_order w c statuses st o
  = Raise (with_io (fetch_order_details w (orderId o) c (st_io st)).2 st).
Proof.
  intros Hacc Hseen Hr. rewrite process_order_lookup by done.
  cbv zeta. by rewrite Hr.
Qed.




(** C10: a finished run emits at most one record without an orderId. Such a
    record goes through the status check like any other; the first one that
    passes it is looked up at the detail URL ending in None, and when the
    lookup returns it is appended and None joins the seen-id set, so that
    every later one is skipped. *)
Theorem missing_order_id fuel w cfg self st :
  run fuel w cfg self = Finished st →
  (without_id (orders st) ≤ 1)%nat
  ∧ ∀ c statuses st' o, orderId o = None →
      (¬ accepted statuses o → process_order w c statuses st' o = Next st')
      ∧ (None ∈ order_ids st' → process_order w c statuses st' o = Next st')
      ∧ (accepted statuses o → None ∉ order_ids st' →
         let st'' := state_of (process_order w c statuses st' o) in
         (∃ tail, trace (st_io st'')
                  = trace (st_io st') ++ EvGetDetail (orders_url c +:+ "/None") :: tail)
         ∧ (((∃ sv slp, orders st'' = orders st' ++ [enrich o sv slp])
             ∧ None ∈ order_ids st'')
            ∨ (orders st'' = orders st'
               ∧ answered_with_bad_body w (calls (st_io st'))
                   (orders_url c +:+ "/None")))).
Proof.
  intros Hrun. split.
  { destruct (run_consistent _ _ _ _ _ Hrun) as (statuses & _ & Hc).
    unfold without_id. apply at_most_once, (ids_unique _ _ Hc). }
  intros c statuses st' o Hid. split; [|split].
  - apply unaccepted_is_skipped.
  - intros Hseen. apply seen_is_skipped. by rewrite Hid.
  - intros Hacc Hseen. rewrite <- Hid in Hseen. cbv zeta.
    destruct (fetch_order_details_trace w (orderId o) c (st_io st')) as (tail & Htr & _).
    rewrite Hid in Htr at 2. change (detail_url c None) with (orders_url c +:+ "/None") in Htr.
    destruct (fetch_order_details w (orderId o) c (st_io st')).1 as [[sv slp]|] eqn:Hr.
    + destruct (process_order_appends_orders w c statuses st' o _ _ Hacc Hseen Hr)
        as [Ho Hids].
      split.
      * rewrite process_order_lookup by done. cbv zeta. rewrite Hr.
        destruct (0 <? _); [|by eauto].
        destruct (progress_percent _ _) as [z|]; [|by eauto].
        exists (tail ++ [EvProgress z]). cbn. rewrite Htr. by rewrite <- app_assoc.
      * left. split; [eauto|]. rewrite Hids, Hid.
        by apply elem_of_union_l, elem_of_singleton.
    + rewrite (process_order_drops w c statuses st' o Hacc Hseen Hr). cbn [state_of].
      split; [by eauto|]. right. split; [done|].
      pose proof (fetch_order_details_raises w (orderId o) c (st_io st') Hr) as Hbad.
      by rewrite Hid in Hbad.
Qed.

Lemma missing_order_id_witness :
  let r := run 5 Scenario.overlap (Some Scenario.cfg) (Scenario.thread "Todos") in
  r = Finished (Scenario.result_state r)
  ∧ without_id (orders (Scenario.result_state r)) = 1%nat
  ∧ (without_id (orders (Scenario.result_state r)) ≤ 1)%nat.
Proof.
  cbv zeta. split; [vm_compute; reflexivity|]. split; [vm_compute; reflexivity|].
  apply (missing_order_id 5 Scenario.overlap (Some Scenario.cfg) (Scenario.thread "Todos")).
  vm_compute; reflexivity.
Defined.

(** ** Pagination of one status *)

Lemma fetch_page_loop_orders w url p m attempts st :
  orders (fetch_page_loop w url p m attempts st) = orders st.
Proof.
  by apply (fetch_page_loop_preserves w (fun s => orders s = orders st)).
Qed.

(** C5: when the body the pipeline reads for a page has no paging key or no
    list key, the pagination of that status ends at that page without
    touching the result; the statuses still to query are processed from that
    state, and what was collected before stays in the result, as does every
    order collected later. *)
Theorem malformed_page_stops_pagination fuel w c statuses p st r data :
  let st1 := fetch_page_loop w (orders_url c) p 3 (Py.range 3) st in
  response st1 = Some r → status_code r = 200 → json r = Some data →
  l_paging data = None ∨ l_list data = None →
  paginate (S fuel) w c statuses p st = (st1, true)
  ∧ orders st1 = orders st
  ∧ (∀ fuel' df todo,
       orders st `prefix_of` orders (for_statuses fuel' w c statuses df todo st1).1)
  ∧ ∀ o, kept w c statuses (fun s => o ∈ orders s).
Proof.
  intros st1 Hr Hcode Hjson Hmissing.
  assert (page_iter w c statuses p st = Break st1) as Hiter.
  { unfold page_iter. fold st1. rewrite Hr, Hcode, Hjson. cbn.
    destruct Hmissing as [-> | ->]; [done|]. by destruct (l_paging data). }
  assert (orders st1 = orders st) as Ho by apply fetch_page_loop_orders.
  split; [|split; [done|split]].
  - cbn [paginate]. by rewrite Hiter.
  - intros fuel' df todo.
    apply (orders_prefix_kept w c statuses (orders st)). by rewrite Ho.
  - intros o. apply order_kept.
Qed.

Lemma malformed_page_stops_pagination_witness :
  let w := Scenario.malformed_second_page in
  let statuses := ["invoiced"; "ready-for-handling"] in
  let df := default "" (date_filter_of Scenario.day Scenario.day) in
  let p1 := first_page df "invoiced" in
  let st := state_of (page_iter w Scenario.cfg statuses p1 initial_state) in
  let st1 := fetch_page_loop w (orders_url Scenario.cfg) (next_page p1) 3 (Py.range 3) st in
  length (orders st) = 100%nat
  ∧ paginate 1 w Scenario.cfg statuses (next_page p1) st = (st1, true)
  ∧ orders st1 = orders st
  ∧ (∀ fuel' df' todo,
       orders st `prefix_of`
         orders (for_statuses fuel' w Scenario.cfg statuses df' todo st1).1)
  ∧ ∀ o, kept w Scenario.cfg statuses (fun s => o ∈ orders s).
Proof.
  cbv zeta. split; [vm_compute; reflexivity|].
  refine (malformed_page_stops_pagination 0 Scenario.malformed_second_page Scenario.cfg
            ["invoiced"; "ready-for-handling"]
            (next_page (first_page (default "" (date_filter_of Scenario.day Scenario.day))
                          "invoiced"))
            (state_of (page_iter Scenario.malformed_second_page Scenario.cfg
                         ["invoiced"; "ready-for-handling"]
                         (first_page (default "" (date_filter_of Scenario.day Scenario.day))
                            "invoiced")
                         initial_state))
            {| status_code := 200; json := Some Scenario.malformed_body |}
            Scenario.malformed_body _ _ _ _).
  - vm_compute; reflexivity.
  - reflexivity.
  - reflexivity.
  - right; reflexivity.
Defined.

(** The run of the scenario as a whole: the second page of invoiced is the
    last request for that status, and the 100 orders of its first page stay
    in the result next to the 2 orders of the other status. *)
Example malformed_second_page_run :
  let r := run 5 Scenario.malformed_second_page (Some Scenario.cfg)
               (Scenario.thread "Todos") in
  Scenario.finished r = true
  ∧ listing_requests (trace (st_io (Scenario.result_state r)))
    = [("invoiced", 1); ("invoiced", 2); ("ready-for-handling", 1)]
  ∧ length (orders (Scenario.result_state r)) = 102%nat.
Proof. cbv zeta. repeat split; vm_compute; reflexivity. Qed.

(** *** Retries of a page request *)

(** The part of the retry policy that holds on every path: when the retry
    loop leaves no response or a response that is not a 200, the pagination
    of the status ends there and the result is untouched. *)
Lemma failed_page_ends_pagination fuel w c statuses p st :
  let st1 := fetch_page_loop w (orders_url c) p 3 (Py.range 3) st in
  (response st1 = None ∨ ∃ r, response st1 = Some r ∧ status_code r ≠ 200) →
  paginate (S fuel) w c statuses p st = (st1, true) ∧ orders st1 = orders st.
Proof.
  intros st1 Hr. split; [|apply fetch_page_loop_orders].
  cbn [paginate]. unfold page_iter. fold st1.
  destruct Hr as [-> | (r & -> & Hcode)]; [done|].
  by destruct (Z.eqb_spec (status_code r) 200).
Qed.

(** Three rate-limit responses in a row: the loop sleeps 1, 2 and 4 seconds
    and leaves the last 429 in [response]. *)
Lemma rate_limited_page w c p st :
  (∀ k : nat, (k < 3)%nat →
     ∃ r, list_api w (calls (st_io st) + k) (orders_url c) p = Got r
          ∧ status_code r = 429) →
  let st1 := fetch_page_loop w (orders_url c) p 3 (Py.range 3) st in
  (∃ r, response st1 = Some r ∧ status_code r = 429)
  ∧ sleeps (trace (st_io st1)) = sleeps (trace (st_io st)) ++ [1; 2; 4].
Proof.
  intros H. cbv zeta.
  destruct (H 0%nat ltac:(lia)) as (r0 & H0 & Hc0).
  destruct (H 1%nat ltac:(lia)) as (r1 & H1 & Hc1).
  destruct (H 2%nat ltac:(lia)) as (r2 & H2 & Hc2).
  rewrite Nat.add_0_r in H0. rewrite Nat.add_1_r in H1.
  replace (calls (st_io st) + 2)%nat with (S (S (calls (st_io st)))) in H2 by lia.
  change (Py.range 3) with [0; 1; 2].
  cbn [fetch_page_loop with_io with_response sleep log request st_io calls].
  rewrite H0, Hc0. cbn [Z.eqb Pos.eqb with_io with_response sleep log request st_io calls].
  rewrite H1, Hc1. cbn [Z.eqb Pos.eqb with_io with_response sleep log request st_io calls].
  rewrite H2, Hc2. cbn [Z.eqb Pos.eqb with_io with_response sleep log request st_io calls
                        response trace].
  split; [by exists r2|].
  unfold sleeps. rewrite !omap_app. cbn. by rewrite !app_nil_r, <- !app_assoc.
Qed.

(** Three requests that raise: the loop sleeps 1 and 2 seconds and leaves
    [response] as it was before the page was requested. *)
Lemma timed_out_page_keeps_response w c p st :
  (∀ k : nat, (k < 3)%nat →
     list_api w (calls (st_io st) + k) (orders_url c) p = RequestException) →
  let st1 := fetch_page_loop w (orders_url c) p 3 (Py.range 3) st in
  response st1 = response st
  ∧ sleeps (trace (st_io st1)) = sleeps (trace (st_io st)) ++ [1; 2].
Proof.
  intros H. cbv zeta.
  pose proof (H 0%nat ltac:(lia)) as H0.
  pose proof (H 1%nat ltac:(lia)) as H1.
  pose proof (H 2%nat ltac:(lia)) as H2.
  rewrite Nat.add_0_r in H0. rewrite Nat.add_1_r in H1.
  replace (calls (st_io st) + 2)%nat with (S (S (calls (st_io st)))) in H2 by lia.
  change (Py.range 3) with [0; 1; 2].
  cbn [fetch_page_loop with_io sleep log request st_io calls].
  change (3 - 1) with 2.
  rewrite H0. cbn [Z.eqb Pos.eqb with_io sleep log request st_io calls].
  rewrite H1. cbn [Z.eqb Pos.eqb with_io sleep log request st_io calls].
  rewrite H2. cbn [Z.eqb Pos.eqb with_io sleep log request st_io calls response trace].
  split; [done|].
  unfold sleeps. rewrite !omap_app. cbn. by rewrite !app_nil_r, <- !app_assoc.
Qed.

(** C3 (failing input): the first page of invoiced is full, every request
    for the second page times out, a third page exists. After the third
    failed attempt [response] still holds the first page's 200 response, so
    the loop reads that body again, adds its total again and goes on to
    page 3 instead of leaving the status. *)
Theorem stale_response_resumes_pagination :
  let r := run 5 Scenario.timeout_on_page2 (Some Scenario.cfg)
               (Scenario.thread "Faturado") in
  let st := Scenario.result_state r in
  Scenario.finished r = true
  ∧ listing_requests (trace (st_io st))
    = [("invoiced", 1); ("invoiced", 2); ("invoiced", 2); ("invoiced", 2);
       ("invoiced", 3)]
  ∧ sleeps (trace (st_io st)) = [1; 2]
  ∧ orderId <$> drop 100 (orders st) = [Some "late"]
  ∧ total_expected st = 303.
Proof. cbv zeta. repeat split; vm_compute; reflexivity. Qed.

(** *** The expected total *)

Lemma fetch_page_loop_total w url p m attempts st :
  total_expected (fetch_page_loop w url p m attempts st) = total_expected st.
Proof.
  by apply (fetch_page_loop_preserves w (fun s => total_expected s = total_expected st)).
Qed.

Lemma process_orders_total w c statuses os st :
  total_expected (state_of (process_orders w c statuses os st)) = total_expected st.
Proof.
  by apply (process_orders_preserves w c statuses
              (fun s => total_expected s = total_expected st)).
Qed.

(** Every page that is read adds the total it reports. *)
Lemma page_iter_adds_total w c statuses p st r data pg os :
  let st1 := fetch_page_loop w (orders_url c) p 3 (Py.range 3) st in
  response st1 = Some r → status_code r = 200 → json r = Some data →
  l_paging data = Some pg → l_list data = Some os →
  total_expected (state_of (page_iter w c statuses p st))
    = total_expected st + default 0 (total pg).
Proof.
  intros st1 Hr Hcode Hjson Hpg Hos.
  pose proof (process_orders_total w c statuses os (add_total (default 0 (total pg)) st1))
    as Ht.
  unfold page_iter. fold st1. rewrite Hr, Hcode, Hjson, Hpg, Hos. cbn [Z.eqb Pos.eqb negb].
  assert (total_expected st1 = total_expected st) as Hst1 by apply fetch_page_loop_total.
  destruct (process_orders _ _ _ _ _) as [st3|st3|st3]; cbn [state_of] in *.
  - destruct (_ || _); cbn [state_of]; rewrite Ht; cbn; by rewrite Hst1.
  - rewrite Ht; cbn; by rewrite Hst1.
  - rewrite Ht; cbn; by rewrite Hst1.
Qed.

(** C7 (failing input): one status, 150 orders on two pages, each page
    reporting the total 150. Line 130 runs once per page, so the run ends
    with total_expected = 300, twice the status's total. *)
Theorem total_added_once_per_page :
  let r := run 5 Scenario.two_pages (Some Scenario.cfg) (Scenario.thread "Faturado") in
  let st := Scenario.result_state r in
  Scenario.finished r = true
  ∧ listing_requests (trace (st_io st)) = [("invoiced", 1); ("invoiced", 2)]
  ∧ length (orders st) = 150%nat
  ∧ total_expected st = 300.
Proof. cbv zeta. repeat split; vm_compute; reflexivity. Qed.

(** ** Progress reporting *)

Lemma progress_values_app (l l' : list event) :
  progress_values (l ++ l') = progress_values l ++ progress_values l'.
Proof. apply omap_app. Qed.



Lemma counter_kept w c statuses :
  kept w c statuses (fun st => orders_fetched st = Z.of_nat (length (orders st))).
Proof.
  apply kept_of_orders; try done.
  intros st o sv slp s _ _ H. cbn. rewrite length_app, H. cbn. lia.
Qed.

(** *** The emissions of a run, page by page *)







(** ** Rounding in binary64 *)

Import Binary64.

Lemma bpow_pos e : (0 < bpow e)%R.
Proof. apply powerRZ_lt. lra. Qed.

Lemma bpow_add a b : bpow (a + b) = (bpow a * bpow b)%R.
Proof. apply powerRZ_add. lra. Qed.


Lemma bpow_IZR n : 0 <= n → bpow n = IZR (2 ^ n).
Proof.
  intros Hn. unfold bpow. rewrite <- (Z2Nat.id n Hn) at 2.
  rewrite <- pow_IZR. rewrite <- (Z2Nat.id n Hn) at 1. symmetry. apply pow_powerRZ.
Qed.


Lemma F2R_bpow m e n : 0 <= n → F2R m (e + n) = F2R (m * 2 ^ n) e.
Proof.
  intros Hn. unfold F2R. rewrite mult_IZR, Z.add_comm, bpow_add, (bpow_IZR n Hn). lra.
Qed.

(** *** Digits *)

Lemma digits2_pos_spec p :
  2 ^ (Z.pos (digits2_pos p) - 1) <= Z.pos p < 2 ^ Z.pos (digits2_pos p).
Proof.
  induction p as [p IH|p IH|]; cbn [digits2_pos]; [| |by compute].
  all: rewrite Pos2Z.inj_succ;
    replace (Z.succ (Z.pos (digits2_pos p)) - 1) with (Z.succ (Z.pos (digits2_pos p) - 1)) by lia;
    rewrite !Z.pow_succ_r by lia; lia.
Qed.

Lemma Zdigits2_spec m :
  0 < m → 2 ^ (Zdigits2 m - 1) <= m < 2 ^ Zdigits2 m.
Proof. destruct m as [|p|p]; [lia| |lia]. intros _. apply digits2_pos_spec. Qed.

Lemma Zdigits2_pos m : 0 < m → 0 < Zdigits2 m.
Proof. destruct m; cbn; lia. Qed.

Lemma Zdigits2_unique m d :
  2 ^ (d - 1) <= m < 2 ^ d → 0 < d → Zdigits2 m = d.
Proof.
  intros [H1 H2] Hd.
  assert (0 < m) as Hm by (pose proof (Z.pow_pos_nonneg 2 (d - 1)); lia).
  destruct (Zdigits2_spec m Hm) as [H3 H4]. pose proof (Zdigits2_pos m Hm) as H5.
  destruct (Z.lt_trichotomy (Zdigits2 m) d) as [Hlt|[Heq|Hgt]]; [|done|].
  - assert (2 ^ Zdigits2 m <= 2 ^ (d - 1)) by (apply Z.pow_le_mono_r; lia). lia.
  - assert (2 ^ d <= 2 ^ (Zdigits2 m - 1)) by (apply Z.pow_le_mono_r; lia). lia.
Qed.



(** *** Shifting a cut to a higher exponent *)





(** *** Rounding a cut *)






(** *** Rounding is monotone *)


Lemma F2R_le m m' e : m <= m' → (F2R m e <= F2R m' e)%R.
Proof.
  intros H%IZR_le. unfold F2R. pose proof (bpow_pos e). nra.
Qed.



(** *** The quotient of two integers as a cut *)





(** *** True division of two positive ints *)


(** *** Multiplication by 100 *)



(** *** Truncation *)



(** *** The progress value grows with the orders fetched *)


(** ** Shipping figures *)

(** *** Signs in binary64 *)

Lemma binary_round_aux_sign mx ex lx :
  sf_not_negative (binary_round_aux prec emax false mx ex lx).
Proof.
  unfold binary_round_aux.
  destruct (shr_fexp _ _ _ _ _) as [mrs' e'].
  destruct (shr_fexp _ _ _ _ _) as [mrs'' e''].
  destruct (shr_m mrs''); [done| |done].
  by destruct (_ <=? _).
Qed.



Lemma not_negative_spec x : not_negative x ↔ sf_not_negative (Prim2SF x).
Proof.
  unfold not_negative. rewrite ltb_spec.
  change (Prim2SF 0) with (S754_zero false).
  unfold SFltb. destruct (Prim2SF x) as [s|[|]| |[|] m e]; cbn; split; done.
Qed.










(** *** What the figures of a body are *)








(** The lookup returns 0.0 twice or the figures of a body the endpoint served. *)
Lemma fetch_order_details_loop_result w url attempts s figures :
  (fetch_order_details_loop w url 3 attempts s).1 = Some figures →
  figures = (0%float, 0%float)
  ∨ ∃ n r data, detail_api w n url = Got r ∧ json r = Some data
                ∧ parse_details data = Some figures.
Proof.
  revert s. induction attempts as [|a rest IH]; intros s; [intros [= <-]; by left|].
  cbn [fetch_order_details_loop].
  destruct (detail_api w (calls s) url) as [|r] eqn:Hw.
  - destruct (a =? 3 - 1); [intros [= <-]; by left | apply IH].
  - destruct (status_code r =? 429); [apply IH|].
    destruct (raises_for_status r).
    { destruct (a =? 3 - 1); [intros [= <-]; by left | apply IH]. }
    destruct (json r) as [data|] eqn:Hj.
    + cbn [fst]. intros Hp. right. by exists (calls s), r, data.
    + destruct (a =? 3 - 1); [intros [= <-]; by left | apply IH].
Qed.






(** ** The cost of a lookup *)

Lemma detail_requests_app (l l' : list event) :
  detail_requests (l ++ l') = detail_requests l ++ detail_requests l'.
Proof. apply omap_app. Qed.

Lemma listing_events_app (l l' : list event) :
  listing_events (l ++ l') = listing_events l ++ listing_events l'.
Proof. apply omap_app. Qed.

Lemma sleeps_app (l l' : list event) : sleeps (l ++ l') = sleeps l ++ sleeps l'.
Proof. apply omap_app. Qed.

Lemma slept_app (l l' : list event) : slept (l ++ l') = slept l + slept l'.
Proof.
  unfold slept. rewrite sleeps_app. induction (sleeps l) as [|x xs IH]; cbn; lia.
Qed.

(** What one lookup adds to the trace: one request per attempt made, at the
    order's URL, and sleeps of 2^attempt seconds. *)
Lemma fetch_order_details_loop_budget w url m attempts s :
  Forall (fun a => 0 <= a) attempts →
  ∃ tail,
    trace (fetch_order_details_loop w url m attempts s).2 = trace s ++ tail
    ∧ calls (fetch_order_details_loop w url m attempts s).2
      = (calls s + length (detail_requests tail))%nat
    ∧ (length (detail_requests tail) ≤ length attempts)%nat
    ∧ (attempts ≠ [] → (1 ≤ length (detail_requests tail))%nat)
    ∧ Forall (fun u => u = url) (detail_requests tail)
    ∧ 0 <= slept tail <= foldr Z.add 0 ((fun a => 2 ^ a) <$> attempts)
    ∧ progress_values tail = [] ∧ listing_events tail = [].
Proof.
  revert s. induction attempts as [|a rest IH]; intros s Ha.
  { exists []. cbn. rewrite app_nil_r. repeat split; try done; lia. }
  apply Forall_cons in Ha as [Ha Hrest].
  assert (0 < 2 ^ a) as Hpow by (apply Z.pow_pos_nonneg; lia).
  assert (0 <= foldr Z.add 0 ((fun a => 2 ^ a) <$> rest)) as Hsum.
  { clear IH. induction Hrest as [|b rest Hb _ IHr]; cbn; [lia|].
    assert (0 < 2 ^ b) by (apply Z.pow_pos_nonneg; lia). lia. }
  (* the attempt made, followed by a return *)
  assert (∃ tail,
    trace (request (EvGetDetail url) s) = trace s ++ tail
    ∧ calls (request (EvGetDetail url) s) = (calls s + length (detail_requests tail))%nat
    ∧ (length (detail_requests tail) ≤ length (a :: rest))%nat
    ∧ (a :: rest ≠ [] → (1 ≤ length (detail_requests tail))%nat)
    ∧ Forall (fun u => u = url) (detail_requests tail)
    ∧ 0 <= slept tail <= foldr Z.add 0 ((fun a => 2 ^ a) <$> (a :: rest))
    ∧ progress_values tail = [] ∧ listing_events tail = []) as Hstop.
  { exists [EvGetDetail url]. cbn. repeat split; try done; try lia.
    by repeat constructor. }
  (* the attempt made, followed by a sleep and the remaining attempts *)
  assert (∃ tail,
    trace (fetch_order_details_loop w url m rest
             (sleep (2 ^ a) (request (EvGetDetail url) s))).2 = trace s ++ tail
    ∧ calls (fetch_order_details_loop w url m rest
               (sleep (2 ^ a) (request (EvGetDetail url) s))).2
      = (calls s + length (detail_requests tail))%nat
    ∧ (length (detail_requests tail) ≤ length (a :: rest))%nat
    ∧ (a :: rest ≠ [] → (1 ≤ length (detail_requests tail))%nat)
    ∧ Forall (fun u => u = url) (detail_requests tail)
    ∧ 0 <= slept tail <= foldr Z.add 0 ((fun a => 2 ^ a) <$> (a :: rest))
    ∧ progress_values tail = [] ∧ listing_events tail = []) as Hnext.
  { destruct (IH (sleep (2 ^ a) (request (EvGetDetail url) s)) Hrest)
      as (tail & Htr & Hcalls & Hlen & _ & Hurl & Hslept & Hprog & Hlist).
    exists (EvGetDetail url :: EvSleep (2 ^ a) :: tail).
    split; [rewrite Htr; cbn; by rewrite <- !app_assoc|].
    change (EvGetDetail url :: EvSleep (2 ^ a) :: tail)
      with ([EvGetDetail url; EvSleep (2 ^ a)] ++ tail).
    rewrite detail_requests_app, slept_app, progress_values_app, listing_events_app.
    rewrite Hprog, Hlist, Hcalls.
    change (detail_requests [EvGetDetail url; EvSleep (2 ^ a)]) with [url].
    change (slept [EvGetDetail url; EvSleep (2 ^ a)]) with (2 ^ a + 0).
    cbn [app length fmap list_fmap foldr sleep log request calls].
    repeat split; try done; try lia. by constructor. }
  cbn [fetch_order_details_loop].
  destruct (detail_api w (calls s) url) as [|r].
  - destruct (a =? m - 1); [apply Hstop | apply Hnext].
  - destruct (status_code r =? 429); [apply Hnext|].
    destruct (raises_for_status r).
    { destruct (a =? m - 1); [apply Hstop | apply Hnext]. }
    destruct (json r); [apply Hstop|].
    destruct (a =? m - 1); [apply Hstop | apply Hnext].
Qed.

Lemma fetch_order_details_budget w oid c s :
  ∃ tail,
    trace (fetch_order_details w oid c s).2 = trace s ++ tail
    ∧ calls (fetch_order_details w oid c s).2
      = (calls s + length (detail_requests tail))%nat
    ∧ (1 ≤ length (detail_requests tail) ≤ 3)%nat
    ∧ Forall (fun u => u = detail_url c oid) (detail_requests tail)
    ∧ 0 <= slept tail <= 7
    ∧ progress_values tail = [] ∧ listing_events tail = [].
Proof.
  unfold fetch_order_details.
  destruct (fetch_order_details_loop_budget w (detail_url c oid) 3 (Py.range 3) s)
    as (tail & Htr & Hcalls & Hlen & Hne & Hurl & Hslept & Hprog & Hlist).
  { repeat constructor; done. }
  exists tail. repeat split; try done.
  - by apply Hne.
  - apply Hslept.
  - apply Hslept.
Qed.

(** X1: a shipping-detail lookup makes between one and three requests, all
    of them GETs of the order's detail URL, sleeps at most 7 seconds in all
    (1 + 2 + 4), and emits no progress and makes no listing request. *)
Theorem lookup_budget w oid c s :
  ∃ tail,
    trace (fetch_order_details w oid c s).2 = trace s ++ tail
    ∧ calls (fetch_order_details w oid c s).2
      = (calls s + length (detail_requests tail))%nat
    ∧ (1 ≤ length (detail_requests tail) ≤ 3)%nat
    ∧ Forall (fun u => u = detail_url c oid) (detail_requests tail)
    ∧ 0 <= slept tail <= 7
    ∧ progress_values tail = [] ∧ listing_events tail = [].
Proof. apply fetch_order_details_budget. Qed.

(** The bound of 7 seconds is reached: after the third 429 the lookup still
    sleeps 4 seconds before it returns the zeros. *)
Example lookup_sleeps_after_last_429 :
  let w := Scenario.scripted
             [Scenario.Detail (Scenario.http 429); Scenario.Detail (Scenario.http 429);
              Scenario.Detail (Scenario.http 429)] in
  sleeps (trace (fetch_order_details w (Some "c") Scenario.cfg (st_io initial_state)).2)
  = [1; 2; 4].
Proof. vm_compute; reflexivity. Qed.

(** ** A lookup that succeeds after failures *)

Lemma fetch_order_details_loop_recovers w url m attempts s k data :
  (k < length attempts)%nat →
  (∀ j : nat, (j < k)%nat →
     attempt_fails (detail_api w (calls s + j) url) ∧ attempts !! j ≠ Some (m - 1)) →
  attempt_succeeds (detail_api w (calls s + k) url) data →
  (fetch_order_details_loop w url m attempts s).1 = parse_details data
  ∧ calls (fetch_order_details_loop w url m attempts s).2 = (calls s + k + 1)%nat.
Proof.
  revert s k. induction attempts as [|a rest IH]; intros s k Hk Hfail Hok; [cbn in Hk; lia|].
  destruct k as [|k].
  - destruct Hok as (r & Hr & H429 & Hraise & Hjson). rewrite Nat.add_0_r in Hr.
    cbn [fetch_order_details_loop]. rewrite Hr.
    destruct (Z.eqb_spec (status_code r) 429) as [|_]; [done|].
    rewrite Hraise, Hjson. cbn. split; [done|lia].
  - destruct (Hfail 0%nat ltac:(lia)) as [H0 Ha]. rewrite Nat.add_0_r in H0.
    assert ((a =? m - 1) = false) as Hlast.
    { apply Z.eqb_neq. intros ->. by apply Ha. }
    assert ((fetch_order_details_loop w url m rest
               (sleep (2 ^ a) (request (EvGetDetail url) s))).1 = parse_details data
            ∧ calls (fetch_order_details_loop w url m rest
                       (sleep (2 ^ a) (request (EvGetDetail url) s))).2
              = (calls s + S k + 1)%nat) as Hnext.
    { destruct (IH (sleep (2 ^ a) (request (EvGetDetail url) s)) k) as [H1 H2].
      - cbn in Hk. lia.
      - intros j Hj. destruct (Hfail (S j) ltac:(lia)) as [Hf Hn].
        cbn [sleep log request calls]. split; [|done].
        by replace (S (calls s) + j)%nat with (calls s + S j)%nat by lia.
      - cbn [sleep log request calls].
        by replace (S (calls s) + k)%nat with (calls s + S k)%nat by lia.
      - split; [done|]. rewrite H2. cbn. lia. }
    cbn [fetch_order_details_loop]. rewrite Hlast.
    destruct (detail_api w (calls s) url) as [|r]; [done|].
    cbn in H0.
    destruct (Z.eqb_spec (status_code r) 429) as [|Hne]; [done|].
    destruct (raises_for_status r); [done|].
    destruct H0 as [H0|[H0|H0]]; [done..|]. by rewrite H0.
Qed.

(** X2: when the attempts before attempt k (k < 3) of a lookup fail and
    attempt k is answered by a response that is neither a 429 nor an HTTP
    error and carries a JSON body, the lookup ends as the extraction of the
    figures from that body does: it returns them, or lets through the
    exception the extraction raises. It makes no further request: k + 1
    requests in all. *)
Theorem lookup_recovers w oid c s k data :
  (k < 3)%nat →
  (∀ j : nat, (j < k)%nat →
     attempt_fails (detail_api w (calls s + j) (detail_url c oid))) →
  attempt_succeeds (detail_api w (calls s + k) (detail_url c oid)) data →
  (fetch_order_details w oid c s).1 = parse_details data
  ∧ calls (fetch_order_details w oid c s).2 = (calls s + k + 1)%nat.
Proof.
  intros Hk Hfail Hok. unfold fetch_order_details.
  change (Py.range 3) with [0; 1; 2].
  apply fetch_order_details_loop_recovers; [cbn; lia| |done].
  intros j Hj. split; [by apply Hfail|].
  destruct j as [|[|j]]; [done..|exfalso; lia].
Qed.

Lemma lookup_recovers_witness :
  let s := st_io initial_state in
  (fetch_order_details Scenario.third_time_lucky (Some "c") Scenario.cfg s).1
    = parse_details (Scenario.shipping_body 1500)
  ∧ parse_details (Scenario.shipping_body 1500) = Some (15%float, 15%float)
  ∧ calls (fetch_order_details Scenario.third_time_lucky (Some "c") Scenario.cfg s).2
    = 3%nat.
Proof.
  cbv zeta.
  assert (∀ A B C : Prop, A ∧ C → B → A ∧ B ∧ C) as Hsplit by tauto.
  apply Hsplit; [|vm_compute; reflexivity].
  apply (lookup_recovers Scenario.third_time_lucky (Some "c") Scenario.cfg
           (st_io initial_state) 2 (Scenario.shipping_body 1500)).
  - lia.
  - intros [|[|j]] Hj; cbn; [by left|done|lia].
  - exists {| status_code := 200; json := Some (Scenario.shipping_body 1500) |}.
    split; [reflexivity|]. split; [done|]. split; reflexivity.
Defined.

(** ** The figures of a detail body *)

Lemma shipping_from_totals_first pre total post i :
  Forall not_shipping pre →
  get total "id" JNull = Some i → eq_str i "Shipping" = true →
  shipping_from_totals (pre ++ total :: post)
  = get total "value" (JInt 0) ≫= div_100.
Proof.
  intros Hpre Hi Hs. induction Hpre as [|e pre (j & Hj & Hne) _ IH]; cbn.
  - rewrite Hi. cbn. by rewrite Hs.
  - rewrite Hj. cbn. by rewrite Hne.
Qed.

Lemma shipping_from_totals_none ts :
  Forall not_shipping ts → shipping_from_totals ts = Some 0%float.
Proof.
  induction 1 as [|e ts (j & Hj & Hne) _ IH]; cbn; [done|].
  rewrite Hj. cbn. by rewrite Hne.
Qed.

(** X3: the shipping value is the shippingValue key divided by 100 whenever
    that key is present and not null, whatever the totals say; without it,
    it is the value (0 when missing) of the first totals entry whose id is
    Shipping, divided by 100, later entries being ignored, and 0.0 when
    there is no such entry. A body that is no object raises. *)
Theorem shipping_value_rules data :
  match get data "shippingValue" JNull with
  | None => shipping_value_of data = None
  | Some JNull =>
      ∀ ts, get data "totals" (JArr []) ≫= items_of = Some ts →
        (∀ pre total post i,
           ts = pre ++ total :: post → Forall not_shipping pre →
           get total "id" JNull = Some i → eq_str i "Shipping" = true →
           shipping_value_of data = get total "value" (JInt 0) ≫= div_100)
        ∧ (Forall not_shipping ts → shipping_value_of data = Some 0%float)
  | Some v => shipping_value_of data = div_100 v
  end.
Proof.
  unfold shipping_value_of.
  destruct (get data "shippingValue" JNull) as [v|]; [|done].
  destruct v; try done. cbn.
  intros ts Hts.
  destruct (get data "totals" (JArr [])) as [totals|]; cbn in *; [|done].
  rewrite Hts. cbn. split.
  - intros pre total post i -> Hpre Hi Hs. by apply (shipping_from_totals_first _ _ _ i).
  - apply shipping_from_totals_none.
Qed.

Lemma list_price_from_first pre item post sv :
  Forall without_list_price pre → has "listPrice" item = Some true →
  list_price_from (pre ++ item :: post) sv = subscript item "listPrice" ≫= div_100.
Proof.
  intros Hpre Hi. induction Hpre as [|e pre He _ IH]; cbn.
  - by rewrite Hi.
  - by rewrite He.
Qed.

(** X4: the shipping list price is the listPrice of the first logistics-info
    entry that has the key, divided by 100; the entries after it and the
    shipping value play no part. *)
Theorem list_price_first_entry data sv pre item post :
  shipping_value_of data = Some sv →
  logistics_info_of data = Some (pre ++ item :: post) →
  Forall without_list_price pre → has "listPrice" item = Some true →
  parse_details data
  = (lp ← subscript item "listPrice" ≫= div_100; Some (sv, lp)).
Proof.
  intros Hsv Hl Hpre Hi. unfold parse_details. rewrite Hsv, Hl. cbn.
  by rewrite list_price_from_first.
Qed.

Lemma list_price_first_entry_witness :
  logistics_info_of Scenario.negative_list_price_body
    = Some ([obj []] ++ obj [("listPrice", JInt (-500))] :: [])
  ∧ parse_details Scenario.negative_list_price_body
    = (lp ← Py.truediv (-500) 100; Some (12%float, lp)).
Proof.
  split; [vm_compute; reflexivity|].
  apply (list_price_first_entry Scenario.negative_list_price_body 12%float
           [obj []] (obj [("listPrice", JInt (-500))]) []).
  - vm_compute; reflexivity.
  - vm_compute; reflexivity.
  - repeat constructor.
  - reflexivity.
Defined.

(** ** What a finished run hands over *)

(** X6: when a run finishes, orders_fetched is the number of orders emitted,
    and so is the number of ids in the seen-id set. *)
Theorem counters_agree fuel w cfg self st :
  run fuel w cfg self = Finished st →
  orders_fetched st = Z.of_nat (length (orders st))
  ∧ size (order_ids st) = length (orders st).
Proof.
  intros Hrun. split.
  - destruct (run_states fuel w cfg self st) as (c & statuses & df & _ & _ & _ & ->);
      [by left|].
    by apply counter_kept.
  - destruct (run_consistent _ _ _ _ _ Hrun) as (statuses & _ & [Hnd Hids _]).
    rewrite <- (length_fmap orderId (orders st)).
    rewrite <- (size_list_to_set (C := gset (option string)) _ Hnd).
    f_equal. apply set_eq. intros i. rewrite Hids. by rewrite elem_of_list_to_set.
Qed.

Lemma counters_agree_witness :
  let r := run 5 Scenario.overlap (Some Scenario.cfg) (Scenario.thread "Todos") in
  r = Finished (Scenario.result_state r)
  ∧ orders_fetched (Scenario.result_state r) = 4
  ∧ orders_fetched (Scenario.result_state r)
    = Z.of_nat (length (orders (Scenario.result_state r)))
  ∧ size (order_ids (Scenario.result_state r))
    = length (orders (Scenario.result_state r)).
Proof.
  cbv zeta. split; [vm_compute; reflexivity|]. split; [vm_compute; reflexivity|].
  apply (counters_agree 5 Scenario.overlap (Some Scenario.cfg) (Scenario.thread "Todos")).
  vm_compute; reflexivity.
Defined.

(** ** Invariants that depend on the page requested *)

Section PagePreservation.
Context (w : world) (c : config) (statuses : list string).
Variable P : state → Prop.
Variable good : params → Prop.
Hypothesis P_fetch : ∀ p st,
  good p → P st → P (fetch_page_loop w (orders_url c) p 3 (Py.range 3) st).
Hypothesis P_page : ∀ st r data pg os,
  P st → response st = Some r → json r = Some data →
  l_paging data = Some pg → l_list data = Some os →
  P (state_of (process_orders w c statuses os (add_total (default 0 (total pg)) st))).
Hypothesis good_next : ∀ p, good p → good (next_page p).

Lemma page_iter_keeps p st :
  good p → P st → P (state_of (page_iter w c statuses p st)).
Proof using P_fetch P_page.
  intros Hp HP. unfold page_iter.
  pose proof (P_fetch p st Hp HP) as H1.
  destruct (response _) as [r|] eqn:Hr; [|done].
  destruct (negb _); [done|].
  destruct (json r) as [data|] eqn:Hj; [|done].
  destruct (l_paging data) as [pg|] eqn:Hpg; [|done].
  destruct (l_list data) as [page_orders|] eqn:Hl; [|done].
  pose proof (P_page _ r data pg page_orders H1 Hr Hj Hpg Hl) as H2.
  destruct (process_orders _ _ _ _ _); cbn [state_of] in *; [|done..].
  by destruct (_ || _).
Qed.

Lemma paginate_keeps fuel p st :
  good p → P st → P (paginate fuel w c statuses p st).1.
Proof using All.
  revert p st. induction fuel as [|fuel IH]; intros p st Hp HP; [done|].
  cbn [paginate].
  pose proof (page_iter_keeps p st Hp HP) as H1.
  destruct (page_iter w c statuses p st); cbn [state_of] in *; auto.
Qed.

Lemma for_statuses_keeps fuel df todo st :
  (∀ s, s ∈ todo → good (first_page df s)) →
  P st → P (for_statuses fuel w c statuses df todo st).1.
Proof using All.
  revert st. induction todo as [|s rest IH]; intros st Hgood HP; [done|].
  cbn [for_statuses].
  pose proof (paginate_keeps fuel (first_page df s) st
                (Hgood s ltac:(left)) HP) as H1.
  destruct (paginate _ _ _ _ _ _) as [st' [|]]; cbn [fst] in *; [|done].
  apply IH; [|done]. intros s' Hs'. apply Hgood. by right.
Qed.
End PagePreservation.

(** ** Requests of a run *)

Lemma fetch_page_loop_listing_events w url p m attempts st :
  ∃ n, listing_events (trace (st_io (fetch_page_loop w url p m attempts st)))
       = listing_events (trace (st_io st)) ++ replicate n (url, p)
       ∧ (n ≤ length attempts)%nat.
Proof.
  revert st. induction attempts as [|a rest IH]; intros st.
  { exists 0%nat. cbn. by rewrite app_nil_r. }
  assert (∀ st', listing_events (trace (st_io st'))
                 = listing_events (trace (st_io st)) ++ [(url, p)] →
    ∃ n, listing_events (trace (st_io (fetch_page_loop w url p m rest
                                         (with_io (sleep (2 ^ a) (st_io st')) st'))))
         = listing_events (trace (st_io st)) ++ replicate n (url, p)
         ∧ (n ≤ length (a :: rest))%nat) as Hnext.
  { intros st' Hst'.
    destruct (IH (with_io (sleep (2 ^ a) (st_io st')) st')) as (n & Hn & Hle).
    exists (S n). split; [|cbn; lia].
    rewrite Hn. cbn [with_io st_io sleep log trace].
    rewrite listing_events_app, Hst'. cbn. by rewrite app_nil_r, <- app_assoc. }
  assert (∀ st', listing_events (trace (st_io st'))
                 = listing_events (trace (st_io st)) ++ [(url, p)] →
    ∃ n, listing_events (trace (st_io st'))
         = listing_events (trace (st_io st)) ++ replicate n (url, p)
         ∧ (n ≤ length (a :: rest))%nat) as Hstop.
  { intros st' Hst'. exists 1%nat. split; [done|cbn; lia]. }
  assert (listing_events (trace (st_io (with_io (request (EvGetList url p) (st_io st)) st)))
          = listing_events (trace (st_io st)) ++ [(url, p)]) as H1.
  { cbn. by rewrite listing_events_app. }
  cbn [fetch_page_loop].
  destruct (list_api w _ url p) as [|r].
  - destruct (a =? m - 1); [by apply Hstop | by apply Hnext].
  - destruct (status_code r =? 429); [by apply Hnext|].
    destruct (raises_for_status r); [|by apply Hstop].
    destruct (a =? m - 1); [by apply Hstop | by apply Hnext].
Qed.

Lemma process_orders_listing_events w c statuses os st :
  listing_events (trace (st_io (state_of (process_orders w c statuses os st))))
  = listing_events (trace (st_io st)).
Proof.
  assert (∀ st' o,
    listing_events (trace (fetch_order_details w (orderId o) c (st_io st')).2)
    = listing_events (trace (st_io st'))) as Hlookup.
  { intros st' o.
    destruct (fetch_order_details_budget w (orderId o) c (st_io st'))
      as (tail & -> & _ & _ & _ & _ & _ & Hl).
    by rewrite listing_events_app, Hl, app_nil_r. }
  apply (process_orders_preserves w c statuses
           (fun s => listing_events (trace (st_io s)) = listing_events (trace (st_io st)))).
  - intros st' o _ _ H _. cbn [with_io st_io]. by rewrite Hlookup.
  - intros st' o sv slp _ _ H _. cbn [append_order st_io]. by rewrite Hlookup.
  - intros st' percent _ _ H. cbn. by rewrite listing_events_app, app_nil_r.
  - done.
Qed.

(** X8: every listing request of a finished run goes to the account's
    orders URL with page size 100, the run's date filter, ascending creation
    date order, one of the requested statuses and a page number from 1 up. *)
Theorem listing_requests_well_formed fuel w c self statuses st :
  status_map (status_filter self) = Some statuses →
  run fuel w (Some c) self = Finished st →
  ∃ df,
    date_filter_of (start_date self) (end_date self) = Some df
    ∧ Forall (well_formed_request c df statuses) (listing_events (trace (st_io st))).
Proof.
  intros Hmap Hrun.
  destruct (run_states fuel w (Some c) self st)
    as (c' & statuses' & df & [= <-] & Hmap' & Hdf & ->); [by left|].
  assert (statuses' = statuses) as -> by congruence.
  exists df. split; [done|].
  apply (for_statuses_keeps w c statuses
           (fun s => Forall (well_formed_request c df statuses)
                            (listing_events (trace (st_io s))))
           (fun p => well_formed_request c df statuses (orders_url c, p))).
  - intros p s Hp Hs.
    destruct (fetch_page_loop_listing_events w (orders_url c) p 3 (Py.range 3) s)
      as (n & -> & _).
    apply Forall_app. split; [done|]. by apply Forall_replicate.
  - intros s r data pg os Hs _ _ _ _. by rewrite process_orders_listing_events.
  - intros p (Hu & Hpp & Hd & Hob & Hs & Hpg). repeat split; try done. cbn in *. lia.
  - intros s Hs. repeat split; try done.
  - constructor.
Qed.

Lemma listing_requests_well_formed_witness :
  let r := run 5 Scenario.overlap (Some Scenario.cfg) (Scenario.thread "Todos") in
  status_map "Todos" = Some ["invoiced"; "ready-for-handling"]
  ∧ r = Finished (Scenario.result_state r)
  ∧ length (listing_events (trace (st_io (Scenario.result_state r)))) = 2%nat
  ∧ ∃ df,
      date_filter_of Scenario.day Scenario.day = Some df
      ∧ Forall (well_formed_request Scenario.cfg df ["invoiced"; "ready-for-handling"])
               (listing_events (trace (st_io (Scenario.result_state r)))).
Proof.
  cbv zeta. split; [reflexivity|]. split; [vm_compute; reflexivity|].
  split; [vm_compute; reflexivity|].
  apply (listing_requests_well_formed 5 Scenario.overlap Scenario.cfg
           (Scenario.thread "Todos") ["invoiced"; "ready-for-handling"]).
  - reflexivity.
  - vm_compute; reflexivity.
Defined.

(** *** Detail requests *)

Lemma fetch_page_loop_detail_requests w url p m attempts st :
  detail_requests (trace (st_io (fetch_page_loop w url p m attempts st)))
  = detail_requests (trace (st_io st))
  ∧ orders (fetch_page_loop w url p m attempts st) = orders st.
Proof.
  apply (fetch_page_loop_preserves w
           (fun s => detail_requests (trace (st_io s)) = detail_requests (trace (st_io st))
                     ∧ orders s = orders st)); [..|done].
  - intros u q s [H1 H2]. cbn. by rewrite detail_requests_app, app_nil_r.
  - intros n s [H1 H2]. cbn. by rewrite detail_requests_app, app_nil_r.
  - done.
Qed.

Lemma process_order_requests w c statuses (n : nat) st o :
  requests_within n st →
  match process_order w c statuses st o with
  | Raise st' => requests_within (S n) st'
  | Next st' | Break st' => requests_within n st'
  end.
Proof.
  unfold requests_within. intros H. unfold process_order.
  destruct (negb _); [done|]. destruct (bool_decide _); [done|].
  destruct (fetch_order_details_budget w (orderId o) c (st_io st))
    as (tail & Htr & _ & Hlen & _).
  destruct (fetch_order_details w (orderId o) c (st_io st)) as [[[sv slp]|] s];
    cbn [snd] in Htr.
  - assert (requests_within n (append_order st o sv slp s)) as Happ.
    { unfold requests_within. cbn [append_order orders st_io]. rewrite Htr.
      rewrite detail_requests_app, !length_app. cbn. lia. }
    destruct (0 <? _); [|done].
    destruct (progress_percent _ _); [|unfold requests_within in *; lia].
    unfold requests_within in *. cbn [with_io log st_io trace orders] in *.
    rewrite detail_requests_app, app_nil_r. cbn [append_order orders st_io] in *. lia.
  - cbn [with_io st_io orders]. rewrite Htr, detail_requests_app, length_app. lia.
Qed.

Lemma process_orders_requests w c statuses (n : nat) os st :
  requests_within n st →
  match process_orders w c statuses os st with
  | Raise st' => requests_within (S n) st'
  | Next st' | Break st' => requests_within n st'
  end.
Proof.
  revert st. induction os as [|o rest IH]; intros st H; [done|].
  cbn [process_orders].
  pose proof (process_order_requests w c statuses n st o H) as H1.
  destruct (process_order w c statuses st o); [by apply IH|done..].
Qed.

Lemma requests_within_mono (n n' : nat) st :
  (n ≤ n')%nat → requests_within n st → requests_within n' st.
Proof. unfold requests_within. lia. Qed.

Lemma page_iter_requests w c statuses (n : nat) p st :
  requests_within n st →
  match page_iter w c statuses p st with
  | Raise st' => requests_within (S n) st'
  | Next st' | Break st' => requests_within n st'
  end.
Proof.
  intros H. unfold page_iter.
  destruct (fetch_page_loop_detail_requests w (orders_url c) p 3 (Py.range 3) st)
    as [Hd Ho].
  assert (requests_within n (fetch_page_loop w (orders_url c) p 3 (Py.range 3) st)) as H1.
  { unfold requests_within in *. by rewrite Hd, Ho. }
  destruct (response _) as [r|]; [|by apply (requests_within_mono n); [lia|]].
  destruct (negb _); [done|].
  destruct (json r) as [data|]; [|by apply (requests_within_mono n); [lia|]].
  destruct (l_paging data) as [pg|]; [|done].
  destruct (l_list data) as [page_orders|]; [|done].
  pose proof (process_orders_requests w c statuses n page_orders
                (add_total (default 0 (total pg))
                   (fetch_page_loop w (orders_url c) p 3 (Py.range 3) st)) H1) as H2.
  destruct (process_orders _ _ _ _ _); cbn [state_of].
  - by destruct (_ || _).
  - by apply (requests_within_mono n); [lia|].
  - done.
Qed.

Lemma paginate_requests w c statuses (n : nat) fuel p st :
  requests_within n st → requests_within (S n) (paginate fuel w c statuses p st).1.
Proof.
  revert p st. induction fuel as [|fuel IH]; intros p st H.
  { by apply (requests_within_mono n); [lia|]. }
  cbn [paginate].
  pose proof (page_iter_requests w c statuses n p st H) as H1.
  destruct (page_iter w c statuses p st); cbn [fst].
  - by apply IH.
  - by apply (requests_within_mono n); [lia|].
  - done.
Qed.

Lemma for_statuses_requests w c statuses (n : nat) fuel df todo st :
  requests_within n st →
  requests_within (n + length todo) (for_statuses fuel w c statuses df todo st).1.
Proof.
  revert n st. induction todo as [|s rest IH]; intros n st H.
  { cbn. by rewrite Nat.add_0_r. }
  cbn [for_statuses].
  pose proof (paginate_requests w c statuses n fuel (first_page df s) st H) as H1.
  destruct (paginate _ _ _ _ _ _) as [st' [|]]; cbn [fst length] in *.
  - replace (n + S (length rest))%nat with (S n + length rest)%nat by lia. by apply IH.
  - by apply (requests_within_mono (S n)); [lia|].
Qed.

(** X7: a finished run makes at least as many detail requests as it emits
    orders, and at most three for each emitted order and three more for
    each status queried: a lookup makes at most three requests, and a lookup
    that lets an exception through, after which no order is appended, ends
    the pagination of its status. When every body the detail endpoint serves
    has figures that can be extracted, the requests are at most three times
    the orders emitted. *)
Theorem detail_requests_per_order fuel w cfg self statuses st :
  status_map (status_filter self) = Some statuses →
  run fuel w cfg self = Finished st →
  (length (orders st) ≤ length (detail_requests (trace (st_io st)))
   ≤ 3 * (length (orders st) + length statuses))%nat
  ∧ ((∀ url, detail_bodies w url (fun data => is_Some (parse_details data))) →
     (length (detail_requests (trace (st_io st))) ≤ 3 * length (orders st))%nat).
Proof.
  intros Hmap Hrun.
  destruct (run_states fuel w cfg self st)
    as (c & statuses' & df & _ & Hmap' & _ & ->); [by left|].
  assert (statuses' = statuses) as -> by congruence.
  split.
  - apply (for_statuses_requests w c statuses 0 fuel df statuses initial_state).
    unfold requests_within. cbn. lia.
  - intros Hbodies.
    apply (preserved_is_kept w c statuses
             (fun s => (length (detail_requests (trace (st_io s)))
                        ≤ 3 * length (orders s))%nat)).
    + intros url p s H. cbn. by rewrite detail_requests_app, app_nil_r.
    + intros n s H. cbn. by rewrite detail_requests_app, app_nil_r.
    + done.
    + done.
    + intros s o _ _ _ Hnone. exfalso.
      destruct (fetch_order_details_raises w (orderId o) c (st_io s) Hnone)
        as (k & data & _ & _ & (r & Hr & _ & _ & Hj) & Hbad).
      destruct (Hbodies _ _ r data Hr Hj) as [figs Hfigs]. congruence.
    + intros s o sv slp _ _ H _. cbn [append_order orders st_io].
      destruct (fetch_order_details_budget w (orderId o) c (st_io s))
        as (tail & -> & _ & Hlen & _).
      rewrite detail_requests_app, !length_app. cbn. lia.
    + intros s percent _ _ H. cbn. by rewrite detail_requests_app, app_nil_r.
    + cbn. lia.
Qed.

Lemma detail_requests_per_order_witness :
  let r := run 5 Scenario.null_shipping_data (Some Scenario.cfg)
               (Scenario.thread "Todos") in
  r = Finished (Scenario.result_state r)
  ∧ length (orders (Scenario.result_state r)) = 1%nat
  ∧ length (detail_requests (trace (st_io (Scenario.result_state r)))) = 2%nat
  ∧ (length (orders (Scenario.result_state r))
     ≤ length (detail_requests (trace (st_io (Scenario.result_state r))))
     ≤ 3 * (length (orders (Scenario.result_state r)) + 2))%nat.
Proof.
  cbv zeta. split; [vm_compute; reflexivity|]. split; [vm_compute; reflexivity|].
  split; [vm_compute; reflexivity|].
  refine (proj1 (detail_requests_per_order 5 Scenario.null_shipping_data
            (Some Scenario.cfg) (Scenario.thread "Todos")
            ["invoiced"; "ready-for-handling"] _ _ _)).
  - reflexivity.
  - vm_compute; reflexivity.
Defined.

(** ** Where an emitted order comes from *)

Lemma fetch_page_loop_traceable w c url p m attempts st :
  traceable w c st → traceable w c (fetch_page_loop w url p m attempts st).
Proof.
  revert st. induction attempts as [|a rest IH]; intros st Hst; [done|].
  assert (∀ s st', traceable w c st' → traceable w c (with_io s st')) as Hio
    by (by intros s st' []).
  cbn [fetch_page_loop].
  destruct (list_api w _ url p) as [|r] eqn:Hr.
  - destruct (a =? m - 1); auto.
  - assert (traceable w c (with_response r
              (with_io (request (EvGetList url p) (st_io st)) st))) as Hnew.
    { destruct Hst as [_ Ho]. split; [|done]. intros r' [= <-]. by eexists _, _, _. }
    destruct (status_code r =? 429); [auto|].
    destruct (raises_for_status r); [|done].
    destruct (a =? m - 1); auto.
Qed.

Lemma process_orders_traceable w c statuses os st :
  Forall (listed w) os → traceable w c st →
  traceable w c (state_of (process_orders w c statuses os st)).
Proof.
  intros Hos. revert st. induction Hos as [|o os Ho _ IH]; intros st Hst; [done|].
  cbn [process_orders].
  assert (traceable w c (state_of (process_order w c statuses st o))) as H1.
  { unfold process_order.
    destruct (negb _); [done|]. destruct (bool_decide _); [done|].
    destruct (fetch_order_details w (orderId o) c (st_io st)) as [[[sv slp]|] s] eqn:Hf;
      [|by destruct Hst].
    assert (traceable w c (append_order st o sv slp s)) as Happ.
    { destruct Hst as [Hr Hl]. split; [done|]. cbn. apply Forall_app. split; [done|].
      repeat constructor. exists o, sv, slp. split; [done|]. split; [|done].
      pose proof (fetch_order_details_loop_result w (detail_url c (orderId o))
                    (Py.range 3) (st_io st) (sv, slp)) as Hres.
      unfold fetch_order_details in Hf. rewrite Hf in Hres. cbn [fst] in Hres.
      destruct (Hres eq_refl) as [->|(n & r & data & Hn & Hj & Hp)]; [by left|].
      right. by exists n, r, data. }
    destruct (0 <? _); [|done].
    destruct (progress_percent _ _); [|done].
    destruct Happ. by split. }
  destruct (process_order w c statuses st o); cbn [state_of] in *; auto.
Qed.

(** X5: every order a finished run emits is a record that some listing
    response contained, unchanged but for the two shipping keys; the figures
    behind those keys are the zeros of a failed lookup or the figures of a
    body the detail endpoint served at that order's URL. *)
Theorem emitted_orders_provenance fuel w c self st :
  run fuel w (Some c) self = Finished st →
  ∀ o', o' ∈ orders st →
    ∃ o sv slp,
      listed w o ∧ lookup_figures w c o (sv, slp) ∧ o' = enrich o sv slp.
Proof.
  intros Hrun.
  destruct (run_states fuel w (Some c) self st)
    as (c' & statuses & df & [= <-] & _ & _ & ->); [by left|].
  apply Forall_forall.
  apply (for_statuses_keeps w c statuses (traceable w c) (fun _ => True)); try done.
  - intros p st _. apply fetch_page_loop_traceable.
  - intros st r data pg os Hst Hr Hj _ Hl.
    apply process_orders_traceable; [|by destruct Hst].
    destruct Hst as [Hserved _]. destruct (Hserved r Hr) as (n & url & p & Hn).
    apply Forall_forall. intros o Ho. by exists n, url, p, r, data, os.
Qed.

Lemma emitted_orders_provenance_witness :
  let r := run 5 Scenario.overlap (Some Scenario.cfg) (Scenario.thread "Todos") in
  r = Finished (Scenario.result_state r)
  ∧ ∀ o', o' ∈ orders (Scenario.result_state r) →
      ∃ o sv slp,
        listed Scenario.overlap o
        ∧ lookup_figures Scenario.overlap Scenario.cfg o (sv, slp)
        ∧ o' = enrich o sv slp.
Proof.
  cbv zeta. split; [vm_compute; reflexivity|].
  apply (emitted_orders_provenance 5 Scenario.overlap Scenario.cfg
           (Scenario.thread "Todos")).
  vm_compute; reflexivity.
Defined.

(** ** The progress values of a run *)











(** *** The pages of a run *)






(** In binary64 the value can be one less than the exact floor:
    29 / 100 * 100 is 28.999999999999996. *)
Example progress_percent_29_of_100 : progress_percent 29 100 = Some 28.
Proof. vm_compute; reflexivity. Qed.
(** ** The date filter *)

(** C9 (failing input): for 2025-04-24 the filter starts at 03:06:00 UTC and
    ends at 03:05:59 UTC of the next day, since the tzinfo handed to
    [datetime.combine] is the zone's local-mean-time entry. Start and end of
    that day in America/Sao_Paulo are 03:00:00 and 02:59:59 UTC, the interval
    the earlier scripts of the repository send. *)
Theorem date_filter_uses_local_mean_time :
  date_filter_of (Datetime.Date 2025 4 24) (Datetime.Date 2025 4 24)
    = Some "creationDate:[2025-04-24T03:06:00.000Z TO 2025-04-25T03:05:59.999Z]"
  ∧ spec_date_filter (Datetime.Date 2025 4 24) (Datetime.Date 2025 4 24)
    = Some "creationDate:[2025-04-24T03:00:00.000Z TO 2025-04-25T02:59:59.999Z]"
  ∧ date_filter_of (Datetime.Date 2025 4 24) (Datetime.Date 2025 4 24)
    ≠ spec_date_filter (Datetime.Date 2025 4 24) (Datetime.Date 2025 4 24).
Proof. repeat split; vm_compute; [reflexivity..|discriminate]. Qed.

(** The filter of the next day starts one millisecond after this one ends. *)
Example adjacent_days_do_not_overlap :
  date_filter_of (Datetime.Date 2025 4 25) (Datetime.Date 2025 4 25)
    = Some "creationDate:[2025-04-25T03:06:00.000Z TO 2025-04-26T03:05:59.999Z]".
Proof. vm_compute; reflexivity. Qed.

(** The year is written without padding, and the conversion to UTC of the
    last day of year 9999 leaves the range of [datetime]. *)
Example date_filter_year_999 :
  date_filter_of (Datetime.Date 999 4 24) (Datetime.Date 999 4 24)
    = Some "creationDate:[999-04-24T03:06:00.000Z TO 999-04-25T03:05:59.999Z]".
Proof. vm_compute; reflexivity. Qed.

Example date_filter_year_9999 :
  date_filter_of (Datetime.Date 9999 12 31) (Datetime.Date 9999 12 31) = None
  ∧ run 5 Scenario.overlap (Some Scenario.cfg)
        {| status_filter := "Todos";
           start_date := Datetime.Date 9999 12 31;
           end_date := Datetime.Date 9999 12 31 |} = OverflowError.
Proof. split; vm_compute; reflexivity. Qed.

(** ** Recovery of a page request *)

Lemma fetch_page_loop_recovers w url p m attempts st k r :
  (k < length attempts)%nat →
  (∀ j : nat, (j < k)%nat →
     page_attempt_fails (list_api w (calls (st_io st) + j) url p)
     ∧ attempts !! j ≠ Some (m - 1)) →
  list_api w (calls (st_io st) + k) url p = Got r →
  status_code r ≠ 429 → raises_for_status r = false →
  let st1 := fetch_page_loop w url p m attempts st in
  response st1 = Some r
  ∧ orders st1 = orders st ∧ total_expected st1 = total_expected st
  ∧ calls (st_io st1) = (calls (st_io st) + k + 1)%nat
  ∧ sleeps (trace (st_io st1))
    = sleeps (trace (st_io st)) ++ ((fun a => 2 ^ a) <$> take k attempts).
Proof.
  cbv zeta. revert st k.
  induction attempts as [|a rest IH]; intros st k Hk Hfail Hok H429 Hraise;
    [cbn in Hk; lia|].
  destruct k as [|k].
  - rewrite Nat.add_0_r in Hok. cbn [fetch_page_loop]. rewrite Hok.
    destruct (Z.eqb_spec (status_code r) 429) as [|_]; [done|].
    rewrite Hraise. cbn. rewrite sleeps_app. cbn. rewrite !app_nil_r.
    repeat split; try done. lia.
  - destruct (Hfail 0%nat ltac:(lia)) as [H0 Ha]. rewrite Nat.add_0_r in H0.
    assert ((a =? m - 1) = false) as Hlast.
    { apply Z.eqb_neq. intros ->. by apply Ha. }
    assert (∀ st',
      orders st' = orders st → total_expected st' = total_expected st →
      calls (st_io st') = S (calls (st_io st)) →
      sleeps (trace (st_io st')) = sleeps (trace (st_io st)) →
      let st1 := fetch_page_loop w url p m rest (with_io (sleep (2 ^ a) (st_io st')) st') in
      response st1 = Some r
      ∧ orders st1 = orders st ∧ total_expected st1 = total_expected st
      ∧ calls (st_io st1) = (calls (st_io st) + S k + 1)%nat
      ∧ sleeps (trace (st_io st1))
        = sleeps (trace (st_io st)) ++ ((fun a => 2 ^ a) <$> take (S k) (a :: rest)))
      as Hnext.
    { intros st' Ho Ht Hc Hs. cbv zeta.
      destruct (IH (with_io (sleep (2 ^ a) (st_io st')) st') k)
        as (H1 & H2 & H3 & H4 & H5); try done.
      - cbn in Hk. lia.
      - intros j Hj. destruct (Hfail (S j) ltac:(lia)) as [Hf Hn].
        cbn [with_io sleep log st_io calls]. rewrite Hc. split; [|done].
        by replace (S (calls (st_io st)) + j)%nat with (calls (st_io st) + S j)%nat by lia.
      - cbn [with_io sleep log st_io calls]. rewrite Hc.
        by replace (S (calls (st_io st)) + k)%nat with (calls (st_io st) + S k)%nat by lia.
      - split; [done|]. split; [by rewrite H2|]. split; [by rewrite H3|]. split.
        + rewrite H4. cbn. lia.
        + rewrite H5. cbn [with_io sleep log st_io trace].
          rewrite sleeps_app, Hs. cbn. by rewrite <- app_assoc. }
    assert (sleeps (trace (st_io (with_io (request (EvGetList url p) (st_io st)) st)))
            = sleeps (trace (st_io st))) as Hs1.
    { cbn. by rewrite sleeps_app, app_nil_r. }
    cbn [fetch_page_loop]. rewrite Hlast.
    destruct (list_api w (calls (st_io st)) url p) as [|r0]; [by apply Hnext|].
    cbn in H0.
    destruct (Z.eqb_spec (status_code r0) 429) as [|Hne]; [by apply Hnext|].
    destruct (raises_for_status r0); [by apply Hnext|].
    by destruct H0.
Qed.

(** X9: when the attempts before attempt k (k < 3) of a page request fail
    (429, HTTP error or raised request) and attempt k is answered by a 200
    with paging and list, the loop has slept 2^0 .. 2^(k-1) seconds, holds
    that response, and the page is read: its total is added and its records
    are processed, as if the page had been answered at once. *)
Theorem page_recovers w c statuses p st k r data pg os :
  (k < 3)%nat →
  (∀ j : nat, (j < k)%nat →
     page_attempt_fails (list_api w (calls (st_io st) + j) (orders_url c) p)) →
  list_api w (calls (st_io st) + k) (orders_url c) p = Got r →
  status_code r = 200 → json r = Some data →
  l_paging data = Some pg → l_list data = Some os →
  let st1 := fetch_page_loop w (orders_url c) p 3 (Py.range 3) st in
  response st1 = Some r
  ∧ orders st1 = orders st
  ∧ sleeps (trace (st_io st1))
    = sleeps (trace (st_io st)) ++ ((fun a => 2 ^ a) <$> take k [0; 1; 2])
  ∧ state_of (page_iter w c statuses p st)
    = state_of (process_orders w c statuses os (add_total (default 0 (total pg)) st1)).
Proof.
  intros Hk Hfail Hok Hcode Hjson Hpg Hos st1.
  assert ((k < length [0; 1; 2])%nat) as Hlen by (cbn; lia).
  assert (∀ j : nat, (j < k)%nat →
            page_attempt_fails (list_api w (calls (st_io st) + j) (orders_url c) p)
            ∧ [0; 1; 2] !! j ≠ Some (3 - 1)) as Hfail'.
  { intros j Hj. split; [by apply Hfail|].
    destruct j as [|[|j]]; [done..|exfalso; lia]. }
  assert (status_code r ≠ 429) as H429 by lia.
  assert (raises_for_status r = false) as Hraise
    by (unfold raises_for_status; by rewrite Hcode).
  destruct (fetch_page_loop_recovers w (orders_url c) p 3 [0; 1; 2] st k r
              Hlen Hfail' Hok H429 Hraise) as (Hr & Ho & _ & _ & Hs).
  change (Py.range 3) with [0; 1; 2] in st1. fold st1 in Hr, Ho, Hs.
  split; [done|]. split; [done|]. split; [done|].
  unfold page_iter. change (Py.range 3) with [0; 1; 2]. fold st1.
  rewrite Hr, Hcode, Hjson, Hpg, Hos. cbn [Z.eqb Pos.eqb negb].
  destruct (process_orders _ _ _ _ _); cbn [state_of]; [|done..].
  by destruct (_ || _).
Qed.

Lemma page_recovers_witness :
  let w := Scenario.rate_limited_once in
  let p := first_page (default "" (date_filter_of Scenario.day Scenario.day)) "invoiced" in
  let page := [Scenario.mk_order (Some "a") "invoiced"] in
  let r := {| status_code := 200;
              json := Some {| l_paging := Some {| total := Some 1 |};
                              l_list := Some page |} |} in
  let st1 := fetch_page_loop w (orders_url Scenario.cfg) p 3 (Py.range 3) initial_state in
  orderId <$> orders (state_of (page_iter w Scenario.cfg ["invoiced"] p initial_state))
    = [Some "a"]
  ∧ response st1 = Some r
  ∧ orders st1 = orders initial_state
  ∧ sleeps (trace (st_io st1))
    = sleeps (trace (st_io initial_state)) ++ ((fun a => 2 ^ a) <$> take 1 [0; 1; 2])
  ∧ state_of (page_iter w Scenario.cfg ["invoiced"] p initial_state)
    = state_of (process_orders w Scenario.cfg ["invoiced"] page
                  (add_total (default 0 (total {| total := Some 1 |})) st1)).
Proof.
  cbv zeta. split; [vm_compute; reflexivity|].
  refine (page_recovers Scenario.rate_limited_once Scenario.cfg ["invoiced"]
            (first_page (default "" (date_filter_of Scenario.day Scenario.day)) "invoiced")
            initial_state 1
            {| status_code := 200;
               json := Some {| l_paging := Some {| total := Some 1 |};
                               l_list := Some [Scenario.mk_order (Some "a") "invoiced"] |} |}
            {| l_paging := Some {| total := Some 1 |};
               l_list := Some [Scenario.mk_order (Some "a") "invoiced"] |}
            {| total := Some 1 |}
            [Scenario.mk_order (Some "a") "invoiced"] _ _ _ _ _ _ _).
  - lia.
  - intros [|j] Hj; [cbn; by left|lia].
  - reflexivity.
  - reflexivity.
  - reflexivity.
  - reflexivity.
  - reflexivity.
Defined.

(** ** Pages that never run short *)

Lemma process_orders_unaccepted w c statuses os st :
  Forall (fun o => ¬ accepted statuses o) os →
  process_orders w c statuses os st = Next st.
Proof.
  induction 1 as [|o os Ho _ IH]; [done|].
  cbn [process_orders]. by rewrite unaccepted_is_skipped.
Qed.

Lemma page_iter_full w c statuses p st :
  full_unrequested_pages w statuses → per_page p = 100 →
  ∃ st', page_iter w c statuses p st = Next st' ∧ orders st' = orders st.
Proof.
  intros Hw Hpp.
  destruct (Hw (calls (st_io st)) (orders_url c) p)
    as (r & data & pg & os & Hr & Hcode & Hj & Hpg & Hl & Hlen & Hos).
  unfold page_iter. change (Py.range 3) with [0; 1; 2].
  cbn [fetch_page_loop]. rewrite Hr, Hcode. cbn [Z.eqb Pos.eqb].
  unfold raises_for_status. rewrite Hcode.
  cbn [Z.leb Z.ltb Z.compare Pos.compare Pos.compare_cont andb with_response response negb].
  rewrite Hj, Hpg, Hl. rewrite process_orders_unaccepted by done.
  rewrite bool_decide_eq_false_2 by (intros ->; cbn in Hlen; lia).
  assert ((Z.of_nat (length os) <? per_page p) = false) as ->
    by (apply Z.ltb_ge; lia).
  rewrite Hcode. cbn [Z.eqb Pos.eqb negb orb]. by eexists.
Qed.

Lemma paginate_full fuel w c statuses p st :
  full_unrequested_pages w statuses → per_page p = 100 →
  (paginate fuel w c statuses p st).2 = false
  ∧ orders (paginate fuel w c statuses p st).1 = orders st.
Proof.
  intros Hw. revert p st. induction fuel as [|fuel IH]; intros p st Hpp; [done|].
  cbn [paginate].
  destruct (page_iter_full w c statuses p st Hw Hpp) as (st' & -> & Ho).
  rewrite <- Ho. by apply IH.
Qed.

(** X11: the pagination has no page limit of its own. When the date filter
    of the run can be built and every listing request is answered by a 200
    with at least 100 records, none of a requested status, the run is still
    paginating the first status whatever the fuel, and has collected
    nothing. *)
Theorem full_pages_never_end fuel w c self statuses :
  status_map (status_filter self) = Some statuses →
  is_Some (date_filter_of (start_date self) (end_date self)) →
  full_unrequested_pages w statuses →
  ∃ st, run fuel w (Some c) self = OutOfFuel st ∧ orders st = [].
Proof.
  intros Hmap [df Hdf] Hw. unfold run. rewrite Hmap, Hdf.
  assert (∃ s rest, statuses = s :: rest) as (s & rest & ->).
  { unfold status_map in Hmap. repeat case_bool_decide; naive_solver. }
  cbn [for_statuses].
  destruct (paginate_full fuel w c (s :: rest) (first_page df s)
              initial_state Hw eq_refl) as [Hflag Ho].
  destruct (paginate _ _ _ _ _ _) as [st [|]]; cbn in Hflag, Ho; [done|].
  by exists st.
Qed.

Lemma full_pages_never_end_witness :
  status_map "Faturado" = Some ["invoiced"]
  ∧ is_Some (date_filter_of Scenario.day Scenario.day)
  ∧ ∃ st, run 7 Scenario.endless (Some Scenario.cfg) (Scenario.thread "Faturado")
          = OutOfFuel st
          ∧ orders st = [].
Proof.
  split; [reflexivity|].
  assert (is_Some (date_filter_of Scenario.day Scenario.day)) as Hdf
    by (vm_compute; eexists; reflexivity).
  split; [exact Hdf|].
  apply (full_pages_never_end 7 Scenario.endless Scenario.cfg
           (Scenario.thread "Faturado") ["invoiced"]).
  - reflexivity.
  - exact Hdf.
  - intros n url p.
    exists {| status_code := 200;
              json := Some {| l_paging := Some {| total := Some 100 |};
                              l_list := Some (Scenario.batch "x" 0 100 "canceled") |} |},
           {| l_paging := Some {| total := Some 100 |};
              l_list := Some (Scenario.batch "x" 0 100 "canceled") |},
           {| total := Some 100 |}, (Scenario.batch "x" 0 100 "canceled").
    do 5 (split; [reflexivity|]). split.
    + unfold Scenario.batch. rewrite length_fmap, length_seq. lia.
    + apply Forall_fmap, Forall_forall. intros i _. unfold accepted. cbn.
      intros [H|H]%elem_of_cons; [discriminate H|]. by apply elem_of_nil in H.
Defined.

(** ** Retries that run out *)

Lemma fetch_page_loop_all_fail w url p m attempts st :
  (∀ j : nat, (j < length attempts)%nat →
     page_attempt_fails (list_api w (calls (st_io st) + j) url p)) →
  holds_no_200 st → holds_no_200 (fetch_page_loop w url p m attempts st).
Proof.
  revert st. induction attempts as [|a rest IH]; intros st Hfail Hst; [done|].
  pose proof (Hfail 0%nat ltac:(cbn; lia)) as H0. rewrite Nat.add_0_r in H0.
  assert (∀ st', calls (st_io st') = S (calls (st_io st)) → holds_no_200 st' →
    holds_no_200 (fetch_page_loop w url p m rest
                    (with_io (sleep (2 ^ a) (st_io st')) st'))) as Hnext.
  { intros st' Hc Hst'. apply IH; [|done].
    intros j Hj. cbn [with_io sleep log st_io calls]. rewrite Hc.
    replace (S (calls (st_io st)) + j)%nat with (calls (st_io st) + S j)%nat by lia.
    apply Hfail. cbn. lia. }
  cbn [fetch_page_loop].
  destruct (list_api w (calls (st_io st)) url p) as [|r]; cbn in H0.
  - destruct (a =? m - 1); [done | by apply Hnext].
  - assert (holds_no_200 (with_response r
              (with_io (request (EvGetList url p) (st_io st)) st))) as Hnew.
    { intros r' [= <-]. destruct H0 as [->|H0]; [done|].
      unfold raises_for_status in H0. lia. }
    destruct (status_code r =? 429) eqn:H429; [by apply Hnext|].
    destruct (raises_for_status r); [|by destruct H0 as [H0|H0]; [lia|]].
    destruct (a =? m - 1); [done | by apply Hnext].
Qed.

(** X12: when the three attempts of a page request all fail and [response]
    does not hold a 200 from an earlier page (it is unbound, as on the first
    request of a run, or holds a failed response), the pagination of the
    status ends there; the result and total_expected are untouched. *)
Theorem exhausted_retries_leave_status fuel w c statuses p st :
  (∀ j : nat, (j < 3)%nat →
     page_attempt_fails (list_api w (calls (st_io st) + j) (orders_url c) p)) →
  holds_no_200 st →
  let st1 := fetch_page_loop w (orders_url c) p 3 (Py.range 3) st in
  paginate (S fuel) w c statuses p st = (st1, true)
  ∧ orders st1 = orders st ∧ total_expected st1 = total_expected st.
Proof.
  intros Hfail Hst st1.
  assert (holds_no_200 st1) as H1.
  { apply fetch_page_loop_all_fail; [|done]. intros j Hj. by apply Hfail. }
  destruct (failed_page_ends_pagination fuel w c statuses p st) as [Hp Ho].
  { fold st1. destruct (response st1) as [r|] eqn:Hr; [|by left].
    right. exists r. split; [done|]. by apply H1. }
  split; [done|]. split; [done|]. apply fetch_page_loop_total.
Qed.

Lemma exhausted_retries_leave_status_witness :
  let w := Scenario.first_page_fails in
  let p := first_page (default "" (date_filter_of Scenario.day Scenario.day)) "invoiced" in
  let st1 := fetch_page_loop w (orders_url Scenario.cfg) p 3 (Py.range 3) initial_state in
  sleeps (trace (st_io st1)) = [1; 2]
  ∧ paginate 1 w Scenario.cfg ["invoiced"] p initial_state = (st1, true)
  ∧ orders st1 = orders initial_state
  ∧ total_expected st1 = total_expected initial_state.
Proof.
  cbv zeta. split; [vm_compute; reflexivity|].
  refine (exhausted_retries_leave_status 0 Scenario.first_page_fails Scenario.cfg
            ["invoiced"]
            (first_page (default "" (date_filter_of Scenario.day Scenario.day)) "invoiced")
            initial_state _ _).
  - intros [|[|[|j]]] Hj; cbn; [by left|done|by right|lia].
  - intros r [=].
Defined.

(** ** Reading a page again *)

Lemma process_order_seen_after w c statuses st o st' :
  process_order w c statuses st o = Next st' →
  order_ids st ⊆ order_ids st' ∧ (accepted statuses o → orderId o ∈ order_ids st').
Proof.
  unfold process_order.
  destruct (bool_decide (default "unknown" (status o) ∈ statuses)) eqn:Hacc; cbn [negb].
  2:{ intros [= <-]. split; [done|]. intros H. by apply bool_decide_eq_false in Hacc. }
  destruct (bool_decide (orderId o ∈ order_ids st)) eqn:Hseen.
  { intros [= <-]. split; [done|]. intros _. by apply bool_decide_eq_true in Hseen. }
  destruct (fetch_order_details _ _ _ _) as [[[sv slp]|] s]; [|done].
  destruct (0 <? _).
  - destruct (progress_percent _ _); [|done]. intros [= <-]. cbn. set_solver.
  - intros [= <-]. cbn. set_solver.
Qed.

Lemma process_orders_seen_after w c statuses os st st' :
  process_orders w c statuses os st = Next st' →
  order_ids st ⊆ order_ids st'
  ∧ Forall (fun o => accepted statuses o → orderId o ∈ order_ids st') os.
Proof.
  revert st. induction os as [|o os IH]; intros st.
  { intros [= <-]. by split. }
  cbn [process_orders].
  destruct (process_order w c statuses st o) as [st1| |] eqn:H1; [|done..].
  intros H2. destruct (process_order_seen_after _ _ _ _ _ _ H1) as [Hsub Ho].
  destruct (IH st1 H2) as [Hsub' Hos]. split; [by etrans|].
  constructor; [|done]. intros Hacc. apply Hsub', Ho, Hacc.
Qed.

Lemma process_orders_all_seen w c statuses os st :
  Forall (fun o => accepted statuses o → orderId o ∈ order_ids st) os →
  process_orders w c statuses os st = Next st.
Proof.
  induction 1 as [|o os Ho _ IH]; [done|].
  cbn [process_orders].
  destruct (decide (default "unknown" (status o) ∈ statuses)) as [Hacc|Hacc].
  - by rewrite seen_is_skipped by auto.
  - by rewrite unaccepted_is_skipped.
Qed.

(** X13: a page that was processed to its end adds nothing when it is
    processed again, whatever the remote side would answer: every record is
    skipped and the state is left as it was. *)
Theorem page_read_twice w w' c statuses os st st' :
  process_orders w c statuses os st = Next st' →
  process_orders w' c statuses os st' = Next st'.
Proof.
  intros H. apply process_orders_all_seen.
  by destruct (process_orders_seen_after _ _ _ _ _ _ H).
Qed.

Lemma page_read_twice_witness :
  let page := [Scenario.mk_order (Some "a") "invoiced";
               Scenario.mk_order (Some "b") "invoiced"] in
  let st' := state_of (process_orders Scenario.flat_rate Scenario.cfg ["invoiced"] page
                         initial_state) in
  length (orders st') = 2%nat
  ∧ process_orders Scenario.endless Scenario.cfg ["invoiced"] page st' = Next st'.
Proof.
  cbv zeta. split; [vm_compute; reflexivity|].
  apply (page_read_twice Scenario.flat_rate Scenario.endless Scenario.cfg ["invoiced"]
           [Scenario.mk_order (Some "a") "invoiced";
            Scenario.mk_order (Some "b") "invoiced"] initial_state).
  vm_compute; reflexivity.
Defined.

(** ** Runs that finish *)

(** X10: when the date filter of the run can be built and the listing
    endpoint never serves a full page of 100 records, the run finishes and
    emits its result: every status is left after its first page, so one turn
    of the page loop per status is enough. *)
Theorem short_pages_finish w c self statuses :
  short_pages w → status_map (status_filter self) = Some statuses →
  is_Some (date_filter_of (start_date self) (end_date self)) →
  ∃ st, ∀ fuel, run (S fuel) w (Some c) self = Finished st.
Proof.
  intros Hw Hmap [df Hdf].
  destruct (run_short_pages 0 w c self statuses df Hw Hmap Hdf) as [st Hst].
  exists st. intros fuel. apply (run_more_fuel 1 fuel _ _ _ _ Hst).
Qed.

Lemma short_pages_finish_witness :
  status_map "Todos" = Some ["invoiced"; "ready-for-handling"]
  ∧ is_Some (date_filter_of Scenario.day Scenario.day)
  ∧ ∃ st, ∀ fuel,
      run (S fuel) Scenario.flat_rate (Some Scenario.cfg) (Scenario.thread "Todos")
      = Finished st.
Proof.
  split; [reflexivity|].
  assert (is_Some (date_filter_of Scenario.day Scenario.day)) as Hdf
    by (vm_compute; eexists; reflexivity).
  split; [exact Hdf|].
  apply (short_pages_finish Scenario.flat_rate Scenario.cfg (Scenario.thread "Todos")
           ["invoiced"; "ready-for-handling"]).
  - intros n url p r data os [= <-] [= <-] [= <-]. cbn. lia.
  - reflexivity.
  - exact Hdf.
Defined.

(** * The configuration file and the dashboard *)

Import Utils Ui UiNotions.

(** ** The configuration file *)

Lemma all_keys_dict d keys :
  all_keys (Dict d) keys = Some (bool_decide (Forall (fun key => key ∈ dom d) keys)).
Proof.
  induction keys as [|key rest IH]; cbn [all_keys has_key].
  { by rewrite bool_decide_eq_true_2. }
  destruct (decide (key ∈ dom d)) as [Hk|Hk].
  - rewrite (bool_decide_eq_true_2 _ Hk), IH. f_equal.
    apply bool_decide_ext. rewrite Forall_cons. tauto.
  - rewrite (bool_decide_eq_false_2 _ Hk).
    rewrite bool_decide_eq_false_2; [done|]. by intros [? _]%Forall_cons.
Qed.

(** X14: when config.json holds a JSON object, either one of the three
    required keys is missing, and the thread emits the error signal without
    a request, or the run reads the three values the object gives; the
    lookups of [run] never raise. *)
Theorem config_keys_present fuel w d self :
  ((∃ key, key ∈ required_keys ∧ d !! key = None)
   ∧ run_from_file fuel w (Json (Dict d)) self
     = Ran (ErrorSignal "Configuração inválida"))
  ∨ ∃ c,
      d !! "vtex_account" = Some (vtex_account c)
      ∧ d !! "app_key" = Some (app_key c)
      ∧ d !! "app_token" = Some (app_token c)
      ∧ run_from_file fuel w (Json (Dict d)) self = Ran (run fuel w (Some c) self).
Proof.
  unfold run_from_file, Utils.load_config. rewrite all_keys_dict.
  case_bool_decide as Hkeys.
  - right.
    apply Forall_cons in Hkeys as [[a Ha]%elem_of_dom Hkeys].
    apply Forall_cons in Hkeys as [[k Hk]%elem_of_dom Hkeys].
    apply Forall_cons in Hkeys as [[t Ht]%elem_of_dom _].
    exists {| vtex_account := a; app_key := k; app_token := t |}.
    repeat split; try done.
    unfold read_config. rewrite bool_decide_eq_false_2.
    + by rewrite Ha, Hk, Ht.
    + intros ->. by rewrite lookup_empty in Ha.
  - left. split; [|done].
    apply not_Forall_Exists in Hkeys; [|intros key; apply _].
    apply Exists_exists in Hkeys as (key & Hin & Hkey).
    exists key. split; [done|]. by apply not_elem_of_dom.
Qed.

Lemma all_keys_true v keys :
  Forall (fun key => has_key v key = Some true) keys → all_keys v keys = Some true.
Proof.
  induction 1 as [|key rest Hk _ IH]; [done|]. cbn [all_keys]. by rewrite Hk.
Qed.

(** X15: the check of [load_config] is a membership test, which a JSON
    array or string that names the three keys passes as well; the value is
    returned, and the first lookup of [run] raises an exception nothing
    catches: no signal is emitted. *)
Theorem non_object_config_uncaught fuel w v self :
  (∀ d, v ≠ Dict d) →
  Forall (fun key => has_key v key = Some true) required_keys →
  Utils.load_config (Json v) = Some v
  ∧ run_from_file fuel w (Json v) self = Uncaught.
Proof.
  intros Hv Hkeys. unfold run_from_file, Utils.load_config.
  rewrite (all_keys_true _ _ Hkeys). split; [done|].
  apply Forall_cons in Hkeys as [Hk _].
  destruct v as [d|items|text|truthy]; cbn [read_config has_key] in *.
  - by destruct (Hv d).
  - rewrite bool_decide_eq_false_2; [done|]. intros ->.
    injection Hk as Hk. discriminate Hk.
  - rewrite bool_decide_eq_false_2; [done|]. by intros ->.
  - done.
Qed.

Lemma non_object_config_uncaught_witness :
  let v := List ["app_token"; "vtex_account"; "app_key"] in
  Utils.load_config (Json v) = Some v
  ∧ run_from_file 5 Scenario.overlap (Json v) (Scenario.thread "Todos") = Uncaught.
Proof.
  cbv zeta.
  refine (non_object_config_uncaught 5 Scenario.overlap
            (List ["app_token"; "vtex_account"; "app_key"]) (Scenario.thread "Todos") _ _).
  - done.
  - repeat constructor.
Defined.

(** ** The search box *)

Lemma contains_empty hay : Py.contains "" hay = true.
Proof. by destruct hay. Qed.

Lemma matching_spec lower text all_orders :
  match matching lower text all_orders with
  | None => Exists (fun o => orderId o = None) all_orders
  | Some l =>
      Forall (fun o => is_Some (orderId o)) all_orders
      ∧ l `sublist_of` all_orders
      ∧ ∀ o, o ∈ l ↔
             o ∈ all_orders
             ∧ ∃ i, orderId o = Some i ∧ Py.contains text (lower i) = true
  end.
Proof.
  induction all_orders as [|o rest IH]; cbn [matching].
  { split; [constructor|]. split; [done|]. intros o. split.
    - by intros ?%elem_of_nil.
    - by intros [?%elem_of_nil _]. }
  destruct (orderId o) as [i|] eqn:Hi; [|by left].
  destruct (matching lower text rest) as [l|]; cbn; [|by right].
  destruct IH as (Hall & Hsub & Hl).
  split; [constructor; [by rewrite Hi|done]|].
  destruct (Py.contains text (lower i)) eqn:Hc.
  - split; [by apply sublist_skip|]. intros o'. rewrite !elem_of_cons, Hl. split.
    + intros [->|[H1 H2]]; [|by auto]. split; [by left|]. by exists i.
    + intros [[->|H1] H2]; auto.
  - split; [by apply sublist_cons|]. intros o'. rewrite elem_of_cons, Hl. split.
    + intros [H1 H2]. auto.
    + intros [[->|H1] H2]; [|done].
      destruct H2 as (i' & Hi' & Hc'). congruence.
Qed.

Lemma apply_search_filter_spec lower search_bar_text all_orders :
  match apply_search_filter lower search_bar_text all_orders with
  | None => Exists (fun o => orderId o = None) all_orders
  | Some l =>
      Forall (fun o => is_Some (orderId o)) all_orders
      ∧ l `sublist_of` all_orders
      ∧ ∀ o, o ∈ l ↔
             o ∈ all_orders
             ∧ ∃ i, orderId o = Some i
                    ∧ Py.contains (lower search_bar_text) (lower i) = true
  end.
Proof.
  unfold apply_search_filter. case_bool_decide as He; [|apply matching_spec].
  subst. split; [constructor|]. split; [done|]. intros o. split.
  - by intros ?%elem_of_nil.
  - by intros [?%elem_of_nil _].
Qed.

(** X16: the search box either raises, which it does exactly when a record
    has no orderId, whatever the text, or keeps, in their order, the records
    whose lowered id Py.contains the lowered text. *)
Theorem search_filter_spec lower search_bar_text all_orders :
  match apply_search_filter lower search_bar_text all_orders with
  | None => Exists (fun o => orderId o = None) all_orders
  | Some l =>
      Forall (fun o => is_Some (orderId o)) all_orders
      ∧ l `sublist_of` all_orders
      ∧ ∀ o, o ∈ l ↔
             o ∈ all_orders
             ∧ ∃ i, orderId o = Some i
                    ∧ Py.contains (lower search_bar_text) (lower i) = true
  end.
Proof. apply apply_search_filter_spec. Qed.

(** X17: with an empty search text every record is kept. *)
Theorem empty_search_keeps_all lower all_orders :
  lower "" = "" → Forall (fun o => is_Some (orderId o)) all_orders →
  apply_search_filter lower "" all_orders = Some all_orders.
Proof.
  intros Hlow Hall. unfold apply_search_filter. rewrite Hlow.
  case_bool_decide as He; [by subst|]. clear He.
  induction Hall as [|o rest [i Hi] _ IH]; [done|].
  cbn [matching]. rewrite Hi, IH. cbn. by rewrite contains_empty.
Qed.

Lemma empty_search_keeps_all_witness :
  let os := [DashboardScenario.late_order; DashboardScenario.noon_order] in
  apply_search_filter DashboardScenario.lower "" os = Some os.
Proof.
  cbv zeta. apply (empty_search_keeps_all DashboardScenario.lower); [reflexivity|].
  repeat constructor; by eexists.
Defined.

(** ** The table *)

Lemma binary_normalize_positive m e :
  sf_not_negative (binary_normalize prec emax (Z.pos m) e false).
Proof.
  unfold binary_normalize, binary_round.
  destruct (shl_align _ _ _) as [mz ez]. apply binary_round_aux_sign.
Qed.

Lemma SFadd_sign x y :
  sf_not_negative x → sf_not_negative y → sf_not_negative (SF64add x y).
Proof.
  destruct x as [sx|sx| |sx mx ex], y as [sy|sy| |sy my ey]; cbn; try done.
  - by destruct sx, sy.
  - by intros -> ->.
  - intros -> ->. cbn. apply binary_normalize_positive.
Qed.

Lemma add_sign x y : not_negative x → not_negative y → not_negative (PrimFloat.add x y).
Proof.
  intros Hx%not_negative_spec Hy%not_negative_spec. apply not_negative_spec.
  rewrite add_spec. by apply SFadd_sign.
Qed.

Lemma max_zero_sign x : not_negative (Ui.max 0%float x).
Proof.
  unfold Ui.max. destruct (PrimFloat.ltb 0 x) eqn:Hlt; [|reflexivity].
  apply not_negative_spec. rewrite ltb_spec in Hlt.
  change (Prim2SF 0) with (S754_zero false) in Hlt. unfold SFltb in Hlt.
  destruct (Prim2SF x) as [s|[|]| |[|] m e]; cbn in *; done.
Qed.

Lemma insert_row_perm r l : insert_row r l ≡ₚ r :: l.
Proof.
  induction l as [|x l IH]; cbn [insert_row]; [done|].
  destruct (_ <=? _); [done|]. rewrite IH. apply Permutation_swap.
Qed.

Lemma sort_rows_perm l : sort_rows l ≡ₚ l.
Proof.
  induction l as [|r l IH]; [done|]. cbn. rewrite insert_row_perm. by constructor.
Qed.

Lemma insert_row_sorted r l :
  Sorted by_creation l → Sorted by_creation (insert_row r l).
Proof.
  induction 1 as [|x l Hl IH Hx]; cbn [insert_row].
  { by repeat constructor. }
  destruct (Z.leb_spec (creation_date_raw r) (creation_date_raw x)) as [Hle|Hlt].
  - constructor; [by constructor|]. by constructor.
  - constructor; [done|].
    destruct l as [|y l]; cbn [insert_row].
    + constructor. unfold by_creation. lia.
    + destruct (_ <=? _).
      * constructor. unfold by_creation. lia.
      * constructor. by inversion Hx.
Qed.

Lemma sort_rows_sorted l : Sorted by_creation (sort_rows l).
Proof.
  induction l as [|r l IH]; [constructor|]. cbn. by apply insert_row_sorted.
Qed.

Lemma shipping_list_price_of_total o : is_Some (shipping_list_price_of o).
Proof.
  unfold shipping_list_price_of.
  destruct (shippingListPrice o); [by eexists|].
  destruct (shippingValue o); [by eexists|]. vm_compute. by eexists.
Qed.

Section table.
Context (isoparse : string → option Z) (utcoffset : Z → Z).
Context (strftime_brazil : Z → string) (format_currency : float → string).
Context (start_date end_date : Datetime.date) (include_freight : bool).

Lemma table_loop_subtotal orders acc t :
  table_loop isoparse utcoffset strftime_brazil format_currency
    start_date end_date false orders acc = Some t →
  not_negative (subtotal acc) → not_negative (subtotal t).
Proof.
  revert acc. induction orders as [|o rest IH]; intros acc; cbn [table_loop].
  { by intros [= <-]. }
  destruct (creationDate o) as [text|]; cbn [mbind option_bind]; [|done].
  destruct (isoparse text) as [d|].
  - destruct (negb _); [apply IH|].
    destruct (order_value_of o) as [ov|]; cbn [mbind option_bind]; [|done].
    destruct (shipping_list_price_of o) as [sl|]; cbn [mbind option_bind]; [|done].
    destruct (orderId o) as [i|]; [|done]. destruct (status o) as [s|]; [|done].
    intros H Hacc. apply (IH _ H). cbn [subtotal].
    apply add_sign; [done|]. apply max_zero_sign.
  - destruct (orderId o); [apply IH|done].
Qed.

Lemma table_loop_rows orders acc t :
  table_loop isoparse utcoffset strftime_brazil format_currency
    start_date end_date include_freight orders acc = Some t →
  ∃ new,
    rows t = rows acc ++ new
    ∧ (length new ≤ length orders)%nat
    ∧ (∀ r, r ∈ new →
         ∃ o value, o ∈ orders ∧ row_of o r
              ∧ in_interval isoparse utcoffset start_date end_date o
                  (creation_date_raw r)
              ∧ value_shown include_freight o value
              ∧ valor_do_pedido r = format_currency value)
    ∧ (∀ o d, o ∈ orders →
         in_interval isoparse utcoffset start_date end_date o d →
         ∃ r, r ∈ new ∧ row_of o r ∧ creation_date_raw r = d).
Proof.
  revert acc. induction orders as [|o rest IH]; intros acc; cbn [table_loop].
  { intros [= <-]. exists []. rewrite app_nil_r. split; [done|]. split; [done|].
    split; [by intros r ?%elem_of_nil|by intros o d ?%elem_of_nil]. }
  assert (∀ t' : table, rows t' = rows acc →
     table_loop isoparse utcoffset strftime_brazil format_currency
       start_date end_date include_freight rest t' = Some t →
     (∀ d, ¬ in_interval isoparse utcoffset start_date end_date o d) →
     ∃ new,
       rows t = rows acc ++ new
       ∧ (length new ≤ length (o :: rest))%nat
       ∧ (∀ r, r ∈ new →
            ∃ o' value, o' ∈ o :: rest ∧ row_of o' r
                 ∧ in_interval isoparse utcoffset start_date end_date o'
                     (creation_date_raw r)
                 ∧ value_shown include_freight o' value
                 ∧ valor_do_pedido r = format_currency value)
       ∧ (∀ o' d, o' ∈ o :: rest →
            in_interval isoparse utcoffset start_date end_date o' d →
            ∃ r, r ∈ new ∧ row_of o' r ∧ creation_date_raw r = d)) as Hskip.
  { intros t' Hrows H Hout.
    destruct (IH _ H) as (new & Hnew & Hlen & Hfrom & Hto).
    exists new. rewrite <- Hrows. split; [done|]. split; [cbn; lia|]. split.
    - intros r Hr. destruct (Hfrom r Hr) as (o' & value & Ho' & Hrest).
      exists o', value. split; [by right|done].
    - intros o' d [->|Ho']%elem_of_cons Hin; [by destruct (Hout d)|].
      by apply (Hto o' d). }
  destruct (creationDate o) as [text|] eqn:Htext; cbn [mbind option_bind]; [|done].
  destruct (isoparse text) as [d|] eqn:Hd.
  - destruct (is_date_in_brazil_interval utcoffset d start_date end_date) eqn:Hint;
      cbn [negb].
    + destruct (order_value_of o) as [ov|] eqn:Hov; cbn [mbind option_bind]; [|done].
      destruct (shipping_list_price_of o) as [sl|] eqn:Hsl;
        cbn [mbind option_bind]; [|done].
      destruct (orderId o) as [i|] eqn:Hi; [|done].
      destruct (status o) as [s|] eqn:Hs; [|done].
      intros H. destruct (IH _ H) as (new & Hnew & Hlen & Hfrom & Hto).
      cbn [rows] in Hnew. rewrite <- app_assoc in Hnew.
      assert (in_interval isoparse utcoffset start_date end_date o d) as Hin_o.
      { split; [by exists text|done]. }
      eexists. split; [exact Hnew|]. split; [cbn; lia|]. split.
      * intros r [->|Hr]%elem_of_cons.
        -- exists o, (display_value_of include_freight ov sl).
           split; [by left|]. split; [by split|]. split; [done|].
           split; [by exists ov, sl|done].
        -- destruct (Hfrom r Hr) as (o' & value & Ho' & Hrest).
           exists o', value. split; [by right|done].
      * intros o' d' [->|Ho']%elem_of_cons Hin.
        -- destruct Hin as [(text' & Htext' & Hd') _].
           assert (d' = d) as -> by congruence.
           eexists. split; [by left|]. by repeat split.
        -- destruct (Hto o' d' Ho' Hin) as (r & Hr & Hrest).
           exists r. split; [by right|done].
    + intros H. apply (Hskip acc eq_refl H).
      intros d' [(text' & Htext' & Hd') Hin].
      assert (d' = d) as -> by congruence. congruence.
  - destruct (orderId o); [|done]. intros H. apply (Hskip acc eq_refl H).
    intros d' [(text' & Htext' & Hd') _]. congruence.
Qed.

Lemma table_loop_drawable orders acc t :
  table_loop isoparse utcoffset strftime_brazil format_currency
    start_date end_date include_freight orders acc = Some t →
  Forall (drawable isoparse utcoffset start_date end_date) orders.
Proof.
  revert acc. induction orders as [|o rest IH]; intros acc; cbn [table_loop];
    [constructor|].
  destruct (creationDate o) as [text|] eqn:Htext; cbn [mbind option_bind]; [|done].
  destruct (isoparse text) as [d|] eqn:Hd.
  - destruct (is_date_in_brazil_interval utcoffset d start_date end_date) eqn:Hint;
      cbn [negb].
    + destruct (order_value_of o) as [ov|] eqn:Hov; cbn [mbind option_bind]; [|done].
      destruct (shipping_list_price_of o) as [sl|]; cbn [mbind option_bind]; [|done].
      destruct (orderId o) as [i|]; [|done]. destruct (status o) as [s|]; [|done].
      intros H. constructor; [|by apply (IH _ H)].
      split; [by rewrite Htext|]. intros _. by rewrite Hov.
    + intros H. constructor; [|by apply (IH _ H)].
      split; [by rewrite Htext|]. intros (d' & (text' & Htext' & Hd') & Hin).
      assert (d' = d) as -> by congruence. congruence.
  - destruct (orderId o); [|done].
    intros H. constructor; [|by apply (IH _ H)].
    split; [by rewrite Htext|]. intros (d' & (text' & Htext' & Hd') & _). congruence.
Qed.

Lemma table_loop_raises orders acc :
  Forall (fun o => is_Some (orderId o) ∧ is_Some (status o)) orders →
  table_loop isoparse utcoffset strftime_brazil format_currency
    start_date end_date include_freight orders acc = None →
  ∃ o, o ∈ orders ∧ ¬ drawable isoparse utcoffset start_date end_date o.
Proof.
  intros Hall. revert acc. induction Hall as [|o rest [[i Hi] [s Hs]] _ IH];
    intros acc; cbn [table_loop]; [done|].
  assert (∀ acc', table_loop isoparse utcoffset strftime_brazil format_currency
            start_date end_date include_freight rest acc' = None →
          ∃ o', o' ∈ o :: rest
                ∧ ¬ drawable isoparse utcoffset start_date end_date o') as Hrest.
  { intros acc' H. destruct (IH _ H) as (o' & Ho' & Hbad).
    exists o'. split; [by right|done]. }
  destruct (creationDate o) as [text|] eqn:Htext; cbn [mbind option_bind].
  2:{ intros _. exists o. split; [by left|]. intros [[? Hc] _].
      rewrite Htext in Hc. discriminate Hc. }
  rewrite Hi, Hs.
  destruct (isoparse text) as [d|] eqn:Hd; [|apply Hrest].
  destruct (is_date_in_brazil_interval utcoffset d start_date end_date) eqn:Hint;
    cbn [negb]; [|apply Hrest].
  destruct (order_value_of o) as [ov|] eqn:Hov; cbn [mbind option_bind].
  2:{ intros _. exists o. split; [by left|]. intros [_ Hv].
      destruct Hv as [? Hv]; [|rewrite Hov in Hv; discriminate Hv].
      exists d. split; [by exists text|done]. }
  destruct (shipping_list_price_of_total o) as [sl ->]. cbn [mbind option_bind].
  apply Hrest.
Qed.

End table.

(** X18: with the freight excluded no displayed value and no subtotal is
    below zero, whatever the order values and shipping prices are. *)
Theorem freight_excluded_subtotal
    isoparse utcoffset strftime_brazil format_currency start_date end_date orders t :
  update_table isoparse utcoffset strftime_brazil format_currency
    start_date end_date false orders = Some t →
  not_negative (subtotal t)
  ∧ ∀ order_value shipping_list_price,
      not_negative (display_value_of false order_value shipping_list_price).
Proof.
  unfold update_table. intros H. split; [|intros ov sl; apply max_zero_sign].
  destruct (table_loop _ _ _ _ _ _ _ _ _) as [t0|] eqn:Hl; [|done].
  cbn in H. injection H as <-. cbn.
  by apply (table_loop_subtotal _ _ _ _ _ _ _ _ _ Hl).
Qed.

(** X19: the table is sorted by creation instant; its rows are exactly the
    orders whose creation date parses and falls in the interval, each with
    its own id, status and formatted value. *)
Theorem table_rows
    isoparse utcoffset strftime_brazil format_currency start_date end_date
    include_freight orders t :
  update_table isoparse utcoffset strftime_brazil format_currency
    start_date end_date include_freight orders = Some t →
  Sorted by_creation (rows t)
  ∧ (length (rows t) ≤ length orders)%nat
  ∧ (∀ r, r ∈ rows t →
       ∃ o value, o ∈ orders ∧ row_of o r
            ∧ in_interval isoparse utcoffset start_date end_date o
                (creation_date_raw r)
            ∧ value_shown include_freight o value
            ∧ valor_do_pedido r = format_currency value)
  ∧ (∀ o d, o ∈ orders →
       in_interval isoparse utcoffset start_date end_date o d →
       ∃ r, r ∈ rows t ∧ row_of o r ∧ creation_date_raw r = d).
Proof.
  unfold update_table. intros H.
  destruct (table_loop _ _ _ _ _ _ _ _ _) as [t0|] eqn:Hl; [|done].
  cbn in H. injection H as <-. cbn [rows].
  destruct (table_loop_rows _ _ _ _ _ _ _ _ _ _ Hl) as (new & Hnew & Hlen & Hfrom & Hto).
  cbn in Hnew. subst new.
  split; [apply sort_rows_sorted|].
  split; [by rewrite sort_rows_perm|]. split.
  - intros r Hr. rewrite sort_rows_perm in Hr. by apply Hfrom.
  - intros o d Ho Hin. destruct (Hto o d Ho Hin) as (r & Hr & Hrest).
    exists r. by rewrite sort_rows_perm.
Qed.

Lemma table_rows_witness :
  let orders := [DashboardScenario.late_order; DashboardScenario.noon_order] in
  let t := default DashboardScenario.empty_table
             (DashboardScenario.update_table DashboardScenario.april_24
                DashboardScenario.april_24 true orders) in
  id_do_pedido <$> rows t = ["Ab-1"; "Z-9"]
  ∧ Sorted by_creation (rows t).
Proof.
  cbv zeta. split; [vm_compute; reflexivity|].
  refine (proj1 (table_rows DashboardScenario.isoparse DashboardScenario.utcoffset
            DashboardScenario.strftime_brazil DashboardScenario.format_currency
            DashboardScenario.april_24 DashboardScenario.april_24 true
            [DashboardScenario.late_order; DashboardScenario.noon_order] _ _)).
  vm_compute; reflexivity.
Defined.

Lemma freight_excluded_subtotal_witness :
  let orders := [DashboardScenario.late_order; DashboardScenario.noon_order] in
  let t := default DashboardScenario.empty_table
             (DashboardScenario.update_table DashboardScenario.april_24
                DashboardScenario.april_24 false orders) in
  subtotal t = 100%float ∧ freight_subtotal t = 90%float
  ∧ not_negative (subtotal t).
Proof.
  cbv zeta. split; [vm_compute; reflexivity|]. split; [vm_compute; reflexivity|].
  refine (proj1 (freight_excluded_subtotal DashboardScenario.isoparse
            DashboardScenario.utcoffset DashboardScenario.strftime_brazil
            DashboardScenario.format_currency DashboardScenario.april_24
            DashboardScenario.april_24
            [DashboardScenario.late_order; DashboardScenario.noon_order] _ _)).
  vm_compute; reflexivity.
Defined.

(** ** The run and the dashboard *)

Lemma without_id_zero os :
  without_id os = 0%nat ↔ Forall (fun o => is_Some (orderId o)) os.
Proof.
  unfold without_id. induction os as [|o os IH]; [by split; [constructor|]|].
  rewrite filter_cons, Forall_cons. destruct (decide (orderId o = None)) as [Ho|Ho].
  - cbn. rewrite Ho. split; [lia|]. by intros [[? [=]] _].
  - rewrite IH. split; [|tauto]. intros H. split; [|done].
    by destruct (orderId o); [eexists|].
Qed.

(** X20: when a finished run hands its orders to the dashboard, the slot
    raises in two cases only. One is a record without an orderId in the
    result, of which there is then one. The other is a record the search
    keeps that the table loop cannot get past: it has no creationDate, or
    its date parses and falls in the interval while its total value is not
    a number. Otherwise the table is drawn, and every row shows a status
    the filter asked for. A missing status never stops it. *)
Theorem dashboard_after_run fuel w cfg self st
    lower isoparse utcoffset strftime_brazil format_currency
    search_bar_text start_date end_date include_freight :
  run fuel w cfg self = Finished st →
  match Ui.on_fetch_finished lower isoparse utcoffset strftime_brazil format_currency
          search_bar_text start_date end_date include_freight (orders st) with
  | None =>
      without_id (orders st) = 1%nat
      ∨ (without_id (orders st) = 0%nat
         ∧ ∃ o, o ∈ orders st ∧ searched lower search_bar_text o
                ∧ ¬ drawable isoparse utcoffset start_date end_date o)
  | Some t =>
      without_id (orders st) = 0%nat
      ∧ (∀ o, o ∈ orders st → searched lower search_bar_text o →
              drawable isoparse utcoffset start_date end_date o)
      ∧ ∃ statuses, status_map (status_filter self) = Some statuses
                    ∧ ∀ r, r ∈ rows t → row_status r ∈ statuses
  end.
Proof.
  intros Hrun. destruct (run_consistent _ _ _ _ _ Hrun) as (statuses & Hmap & Hc).
  assert (∀ o, o ∈ orders st → ∃ s, status o = Some s ∧ s ∈ statuses) as Hst.
  { intros o Ho.
    pose proof (proj1 (Forall_forall _ _) (all_accepted _ _ Hc) o Ho) as Hacc.
    unfold accepted in Hacc. destruct (status o) as [s|]; cbn in Hacc.
    - by exists s.
    - by apply status_map_known in Hmap. }
  assert (without_id (orders st) ≤ 1)%nat as Hone.
  { unfold without_id. apply at_most_once, (ids_unique _ _ Hc). }
  unfold Ui.on_fetch_finished.
  pose proof (apply_search_filter_spec lower search_bar_text (orders st)) as Hsearch.
  destruct (apply_search_filter lower search_bar_text (orders st)) as [shown|];
    cbn [mbind option_bind].
  - destruct Hsearch as (Hids & Hsub & Hkept).
    assert (∀ o, o ∈ shown → o ∈ orders st) as Hshown.
    { intros o Ho. by apply (elem_of_sublist shown). }
    assert (Forall (fun o => is_Some (orderId o) ∧ is_Some (status o)) shown) as Hall.
    { apply Forall_forall. intros o Ho%Hshown. split.
      - by apply (proj1 (Forall_forall _ _) Hids).
      - destruct (Hst o Ho) as (s & -> & _). by eexists. }
    unfold update_table.
    destruct (table_loop isoparse utcoffset strftime_brazil format_currency
                start_date end_date include_freight shown
                {| rows := []; subtotal := 0%float; freight_subtotal := 0%float |})
      as [t0|] eqn:Hl; cbn [mbind option_bind].
    + split; [by apply without_id_zero|]. split.
      * intros o Ho Hs.
        apply (proj1 (Forall_forall _ _) (table_loop_drawable _ _ _ _ _ _ _ _ _ _ Hl)).
        by apply Hkept.
      * exists statuses. split; [done|]. intros r Hr. cbn [rows] in Hr.
        rewrite sort_rows_perm in Hr.
        destruct (table_loop_rows _ _ _ _ _ _ _ _ _ _ Hl) as (new & Hnew & _ & Hfrom & _).
        cbn in Hnew. subst new.
        destruct (Hfrom r Hr) as (o & value & Ho%Hshown & [_ Hs] & _).
        destruct (Hst o Ho) as (s & Hs' & Hin). congruence.
    + right. split; [by apply without_id_zero|].
      destruct (table_loop_raises _ _ _ _ _ _ _ _ _ Hall Hl) as (o & Ho & Hbad).
      exists o. split; [by apply Hshown|]. split; [by apply Hkept|done].
  - left. assert (without_id (orders st) ≠ 0%nat); [|lia].
    rewrite without_id_zero. intros Hall.
    apply Exists_exists in Hsearch as (o & Ho & Hid).
    destruct (proj1 (Forall_forall _ _) Hall o Ho) as [i Hi]. congruence.
Qed.

Lemma dashboard_after_run_witness :
  let r := run 5 DashboardScenario.undated (Some Scenario.cfg) (Scenario.thread "Todos") in
  let shown := DashboardScenario.on_fetch_finished "" DashboardScenario.april_24
                 DashboardScenario.april_24 true (orders (Scenario.result_state r)) in
  length (orders (Scenario.result_state r)) = 1%nat
  ∧ shown = None
  ∧ match shown with
    | None =>
        without_id (orders (Scenario.result_state r)) = 1%nat
        ∨ (without_id (orders (Scenario.result_state r)) = 0%nat
           ∧ ∃ o, o ∈ orders (Scenario.result_state r)
                  ∧ searched DashboardScenario.lower "" o
                  ∧ ¬ drawable DashboardScenario.isoparse DashboardScenario.utcoffset
                        DashboardScenario.april_24 DashboardScenario.april_24 o)
    | Some t =>
        without_id (orders (Scenario.result_state r)) = 0%nat
        ∧ (∀ o, o ∈ orders (Scenario.result_state r) →
                searched DashboardScenario.lower "" o →
                drawable DashboardScenario.isoparse DashboardScenario.utcoffset
                  DashboardScenario.april_24 DashboardScenario.april_24 o)
        ∧ ∃ statuses, status_map "Todos" = Some statuses
                      ∧ ∀ r', r' ∈ rows t → row_status r' ∈ statuses
    end.
Proof.
  cbv zeta. split; [vm_compute; reflexivity|]. split; [vm_compute; reflexivity|].
  refine (dashboard_after_run 5 DashboardScenario.undated (Some Scenario.cfg)
            (Scenario.thread "Todos")
            (Scenario.result_state
               (run 5 DashboardScenario.undated (Some Scenario.cfg)
                  (Scenario.thread "Todos")))
            DashboardScenario.lower
            DashboardScenario.isoparse DashboardScenario.utcoffset
            DashboardScenario.strftime_brazil DashboardScenario.format_currency
            "" DashboardScenario.april_24 DashboardScenario.april_24 true _).
  vm_compute; reflexivity.
Defined.

(** The other way to raise: a record without an orderId in the result. *)
Example dashboard_after_overlap :
  let r := run 5 Scenario.overlap (Some Scenario.cfg) (Scenario.thread "Todos") in
  DashboardScenario.on_fetch_finished "" DashboardScenario.april_24
    DashboardScenario.april_24 true (orders (Scenario.result_state r)) = None
  ∧ without_id (orders (Scenario.result_state r)) = 1%nat.
Proof. cbv zeta. split; vm_compute; reflexivity. Qed.

(** X21: the status filters the dialog offers are exactly the keys of the
    status map of [run]; with a configuration, the run ends on the uncaught
    KeyError exactly when its date filter can be built and its status filter
    is none of them. *)
Theorem dialog_statuses_known s :
  (s ∈ status_items ↔ is_Some (status_map s))
  ∧ ∀ fuel w c start_date end_date,
      run fuel w (Some c)
        {| start_date := start_date; end_date := end_date; status_filter := s |}
      = KeyError
      ↔ ((s ∉ status_items) ∧ is_Some (date_filter_of start_date end_date)).
Proof.
  assert (s ∈ status_items ↔ is_Some (status_map s)) as Hitems.
  { unfold status_items, status_map. rewrite !elem_of_cons, elem_of_nil.
    repeat case_bool_decide; subst; split;
      try (intros _; by eexists); try (intros [? [=]]); tauto. }
  split; [done|]. intros fuel w c sd ed. rewrite Hitems. unfold run.
  cbn [status_filter start_date end_date].
  destruct (date_filter_of sd ed) as [df|].
  2:{ split; [done|]. by intros [_ [? [=]]]. }
  destruct (status_map s) as [statuses|].
  - destruct (for_statuses _ _ _ _ _ _ _) as [st [|]]; split; try done.
    all: intros [[] _]; by eexists.
  - split; [|done]. intros _. split; [by intros [? [=]]|by eexists].
Qed.
